(** * BAShapes: the synthetic Barabasi-Albert dataset with planted motifs

    A shallow embedding of [graphxai/datasets/BA_shapes/ba_shapes.py].

    Conventions of the embedding:
    - a Python exception is a value of [exn]; a call that may raise returns
      a [result];
    - code that draws from a process-wide random generator (Python's
      [random] module, torch's default generator) runs in the state-and-error
      monad [M] over a [World] holding the two generator states;
    - tensor entries and network statistics, floats in the source, are
      rationals, the exact values of the floats; NumPy's [nan] is [None]
      where it can arise. The conversion of the network statistics to a
      single-precision tensor is the function [tensor_float] of the library.
      The mean that [np.median] takes of the two middle values of an even
      count is kept exact, where NumPy rounds it to single precision (and
      overflows if the sum does); the properties that speak of the median
      of an even count are stated so that they hold of the rounded mean
      too;
    - a string is UTF-8 text; [str.lower] is modelled on the ASCII letters
      and the Kelvin sign, which is enough to decide equality with the ASCII
      names the class compares against;
    - everything the class imports but that is not part of the file
      (networkx, the k-hop helper, the motif template, the planter of the
      base class) is a field of the record [Library]. *)

From Stdlib Require Import ZArith QArith Qabs Qround String Ascii List Sorted Lia.
From stdpp Require Import base list strings.

Close Scope Q_scope.
Local Open Scope string_scope.

(** ** Exceptions and results *)

Inductive exn : Set :=
  | NotImplementedError
  | UnboundLocalError
  | TypeError
  | KeyError
  | IndexError
  | AttributeError
  | NetworkXError.

Inductive result (A : Type) : Type :=
  | Ok (a : A)
  | Err (e : exn).
Arguments Ok {A} a.
Arguments Err {A} e.

#[global] Instance result_ret : MRet result := fun A a => Ok a.
#[global] Instance result_bind : MBind result :=
  fun A B f r => match r with Ok a => f a | Err e => Err e end.
#[global] Instance result_fmap : FMap result :=
  fun A B f r => match r with Ok a => Ok (f a) | Err e => Err e end.

(** [[f(a) for a in l]] where [f] may raise: the first exception wins. *)
Fixpoint traverse {A B : Type} (f : A -> result B) (l : list A) : result (list B) :=
  match l with
  | [] => Ok []
  | a :: l' => b ← f a; bs ← traverse f l'; Ok (b :: bs)
  end.

Definition is_ok {A : Type} (r : result A) : bool :=
  match r with Ok _ => true | Err _ => false end.

(** [l[i]] for a non-negative index. *)
Definition py_index {A : Type} (l : list A) (i : nat) : result A :=
  match l !! i with Some a => Ok a | None => Err IndexError end.

(** [l[i] = v]: Python raises out of range. *)
Definition py_setitem {A : Type} (l : list A) (i : nat) (v : A) : result (list A) :=
  if (i <? length l)%nat then Ok (<[i := v]> l) else Err IndexError.

(** ** Strings *)

Definition ascii_lower (c : ascii) : ascii :=
  let k := nat_of_ascii c in
  if ((65 <=? k) && (k <=? 90))%nat then ascii_of_nat (k + 32) else c.

(** The three bytes of U+212A KELVIN SIGN in UTF-8. *)
Definition is_kelvin (c1 c2 c3 : ascii) : bool :=
  ((nat_of_ascii c1 =? 226) && (nat_of_ascii c2 =? 132) && (nat_of_ascii c3 =? 170))%nat.

Definition kelvin_sign : string :=
  String (ascii_of_nat 226) (String (ascii_of_nat 132) (String (ascii_of_nat 170) EmptyString)).

(** [str.lower] on UTF-8 text: the ASCII capitals become small letters and
    the Kelvin sign becomes [k], the only character outside ASCII whose
    lower-case form is ASCII text. The other bytes are kept, so that the
    result equals an ASCII name exactly when Python's does. *)
Fixpoint str_lower (s : string) : string :=
  match s with
  | EmptyString => EmptyString
  | String c s1 =>
      match s1 with
      | String c2 (String c3 s3) =>
          if is_kelvin c c2 c3 then String "k" (str_lower s3)
          else String (ascii_lower c) (str_lower s1)
      | _ => String (ascii_lower c) (str_lower s1)
      end
  end.

(** ** Numbers: NumPy helpers *)

Definition Qgtb (a b : Q) : bool := negb (Qle_bool a b).

(** [a > med] where [med] may be [nan]: every comparison with [nan] is false. *)
Definition gt_float (a : Q) (med : option Q) : bool :=
  match med with Some b => Qgtb a b | None => false end.

Fixpoint insert_sorted_Q (a : Q) (l : list Q) : list Q :=
  match l with
  | [] => [a]
  | b :: l' => if Qle_bool a b then a :: l else b :: insert_sorted_Q a l'
  end.

Definition sort_Q (l : list Q) : list Q := foldr insert_sorted_Q [] l.

(** [np.median]: the middle of the sorted values, the mean of the two middle
    ones for an even count, [nan] for no value at all. *)
Definition np_median (l : list Q) : option Q :=
  let s := sort_Q l in
  let k := length s in
  if (k =? 0)%nat then None
  else if Nat.even k
       then a ← s !! (k / 2 - 1)%nat; b ← s !! (k / 2)%nat; Some (Qdiv (Qplus a b) (2 # 1))
       else s !! (k / 2)%nat.

(** [np.unique] on integers: the sorted distinct values. *)
Fixpoint insert_unique (a : Z) (l : list Z) : list Z :=
  match l with
  | [] => [a]
  | b :: l' =>
      if (a <? b)%Z then a :: l
      else if (a =? b)%Z then l
      else b :: insert_unique a l'
  end.

Definition np_unique (l : list Z) : list Z := foldr insert_unique [] l.

(** ** Graphs with node attributes *)

(** A feature vector: a one-dimensional tensor. *)
Abbreviation Feature := (list Q).

(** The attribute dictionary of a node: the keys ['x'] and ['shape'] may be
    absent. *)
Record NodeData : Type := mkNodeData {
  attr_x : option Feature;
  attr_shape : option Z
}.

(** A networkx graph: the nodes in insertion order, each with its attribute
    dictionary, and the undirected edges. *)
Record Graph : Type := mkGraph {
  node_list : list (nat * NodeData);
  edge_list : list (nat * nat)
}.

Definition nodes (G : Graph) : list nat := map fst (node_list G).

Fixpoint assoc {V : Type} (l : list (nat * V)) (i : nat) : option V :=
  match l with
  | [] => None
  | (j, v) :: l' => if (j =? i)%nat then Some v else assoc l' i
  end.

(** [G.nodes[i]] *)
Definition node_at (G : Graph) (i : nat) : result NodeData :=
  match assoc (node_list G) i with Some d => Ok d | None => Err KeyError end.

(** [G.nodes[i]['x']] *)
Definition node_x (G : Graph) (i : nat) : result Feature :=
  d ← node_at G i;
  match attr_x d with Some f => Ok f | None => Err KeyError end.

(** [G.nodes[i]['shape']] *)
Definition node_shape (G : Graph) (i : nat) : result Z :=
  d ← node_at G i;
  match attr_shape d with Some s => Ok s | None => Err KeyError end.

(** [nx.get_node_attributes(G, 'x')]: the dictionary of the nodes that carry
    the attribute. *)
Definition get_node_attributes_x (G : Graph) : list (nat * Feature) :=
  omap (fun p : nat * NodeData => f ← attr_x (snd p); Some (fst p, f)) (node_list G).

Definition dict_get {V : Type} (d : list (nat * V)) (i : nat) : result V :=
  match assoc d i with Some v => Ok v | None => Err KeyError end.

(** A motif template. *)
Record Motif : Type := mkMotif {
  motif_size : nat;
  motif_edges : list (nat * nat)
}.

(** ** Random generators and the world *)

(** A generator, seen through its draws: [outputs g k] is the value that
    draw number [k] returns and [cursor g] counts the draws made so far. One
    draw is one call of [random.choice] (which reduces the value below the
    length of its sequence) or one sample of [torch.normal]; how many words of
    the underlying bit generator a draw uses is not modelled. *)
Record Generator (A : Type) : Type := mkGenerator {
  outputs : nat -> A;
  cursor : nat
}.
Arguments mkGenerator {A} outputs cursor.
Arguments outputs {A} g n.
Arguments cursor {A} g.

Definition next {A : Type} (g : Generator A) : A * Generator A :=
  (outputs g (cursor g), mkGenerator (outputs g) (S (cursor g))).

(** The process-wide generators: Python's [random] module and torch's
    default generator. *)
Record World : Type := mkWorld {
  py_random : Generator nat;
  torch_default : Generator Q
}.

Definition M (A : Type) : Type := World -> result (A * World).

Definition retM {A : Type} (a : A) : M A := fun w => Ok (a, w).

Definition bindM {A B : Type} (c : M A) (k : A -> M B) : M B :=
  fun w => match c w with Ok (a, w') => k a w' | Err e => Err e end.

Definition liftM {A : Type} (r : result A) : M A :=
  fun w => match r with Ok a => Ok (a, w) | Err e => Err e end.

Notation "x <~ c ;; k" := (bindM c (fun x => k))
  (at level 100, c at next level, right associativity).

Fixpoint traverseM {A B : Type} (f : A -> M B) (l : list A) : M (list B) :=
  match l with
  | [] => retM []
  | a :: l' => b <~ f a ;; bs <~ traverseM f l' ;; retM (b :: bs)
  end.

(** [random.choice(seq)]: one draw of the module-level generator, reduced
    below [len(seq)], selects the element. *)
Definition random_choice {A : Type} (seq : list A) : M A :=
  fun w =>
    let (r, g) := next (py_random w) in
    a ← py_index seq (r mod length seq)%nat;
    Ok (a, mkWorld g (torch_default w)).

(** [torch.normal(mean=0, std=1.0, size=(k,))]: [k] samples of torch's
    default generator. *)
Fixpoint torch_normal (k : nat) : M Feature :=
  match k with
  | O => retM []
  | S k' =>
      fun w =>
        let (d, g) := next (torch_default w) in
        bindM (torch_normal k') (fun ds => retM (d :: ds)) (mkWorld (py_random w) g)
  end.

(** ** The class and its collaborators *)

(** The arguments of [BAShapes.__init__]. *)
Record InitArgs : Type := mkInitArgs {
  a_num_hops : nat;
  a_n : Z;
  a_m : Z;
  a_num_shapes : option Z;
  a_shape : string;
  a_seed : option Z;
  a_insert_method : string;
  a_plant_method : string;
  a_feature_method : string;
  a_labeling_method : string;
  a_kwargs : list (string * Z)
}.

(** The attributes of a [BAShapes] object; [num_hops] and [G] are unset
    until the base class and [init_graph] assign them. *)
Record BAShapes : Type := mkBAShapes {
  self_n : Z;
  self_m : Z;
  self_seed : option Z;
  self_feature_method : string;
  self_labeling_method : string;
  self_num_hops : option nat;
  self_G : option Graph
}.

Definition set_G (self : BAShapes) (G : Graph) : BAShapes :=
  mkBAShapes (self_n self) (self_m self) (self_seed self)
    (self_feature_method self) (self_labeling_method self)
    (self_num_hops self) (Some G).

Definition set_num_hops (self : BAShapes) (k : nat) : BAShapes :=
  mkBAShapes (self_n self) (self_m self) (self_seed self)
    (self_feature_method self) (self_labeling_method self)
    (Some k) (self_G self).

(** Reading an attribute that was never assigned. *)
Definition getattr {A : Type} (o : option A) : result A :=
  match o with Some a => Ok a | None => Err AttributeError end.

(** The keyword arguments of the call [super().__init__(...)]. *)
Record SuperCall : Type := mkSuperCall {
  sc_name : string;
  sc_num_hops : nat;
  sc_num_shapes : option Z;
  sc_insert_method : string;
  sc_plant_method : string;
  sc_insertion_shape : Motif;
  sc_kwargs : list (string * Z)
}.

(** What the file imports and calls but does not define.
    - [barabasi_albert_graph n m g] is [nx.barabasi_albert_graph] drawing
      from the generator [g]; networkx turns an integer [seed] into a fresh
      generator [Random seed] and [seed=None] into the generator of the
      [random] module (see [init_graph]);
    - [degree], [clustering], [degree_centrality] are the networkx
      statistics;
    - [khop_subgraph_nx] is the helper of [graphxai.utils.nx_conversion];
    - [house] is the template of [..utils.shapes];
    - [plant_shapes] is the motif planter of the base class [ShapeGraph];
    - [tensor_float] is what [torch.tensor([...]).float()] does to each
      number: the conversion to single precision. *)
Record Library : Type := mkLibrary {
  barabasi_albert_graph : Z -> Z -> Generator nat -> result (Graph * Generator nat);
  Random : Z -> Generator nat;
  degree : Graph -> nat -> result Q;
  clustering : Graph -> nat -> result Q;
  degree_centrality : Graph -> list (nat * Q);
  khop_subgraph_nx : nat -> nat -> Graph -> result (list nat);
  house : Motif;
  plant_shapes : SuperCall -> Graph -> M Graph;
  tensor_float : Q -> Q
}.

Section WithLibrary.

Context (lib : Library).

(** [BAShapes.__init__] up to the call of the base-class constructor: the
    attributes it assigns and the arguments it passes on. The local variable
    [insert_shape] is bound by the ['house'] branch only. *)
Definition BAShapes_init (a : InitArgs) : result (BAShapes * SuperCall) :=
  let feature_method := str_lower (a_feature_method a) in
  let labeling_method := str_lower (a_labeling_method a) in
  let labeling_method :=
    if String.eqb labeling_method "feature and edge"
    then "edge and feature" else labeling_method in
  let num_shapes :=
    match a_num_shapes a with
    | None =>
        if String.eqb (a_plant_method a) "neighborhood upper bound"
        then Some (a_n a) else None
    | Some k => Some k
    end in
  let insert_shape : option Motif :=
    if String.eqb (str_lower (a_shape a)) "house" then Some (house lib)
    else if String.eqb (str_lower (a_shape a)) "flag" then None
    else if String.eqb (str_lower (a_shape a)) "circle" then None
    else None in
  match insert_shape with
  | None => Err UnboundLocalError
  | Some shp =>
      Ok (mkBAShapes (a_n a) (a_m a) (a_seed a) feature_method labeling_method
            None None,
          mkSuperCall "BAHouses" (a_num_hops a) num_shapes (a_insert_method a)
            (a_plant_method a) shp (a_kwargs a))
  end.

(** [init_graph]: [self.G = nx.barabasi_albert_graph(self.n, self.m,
    seed = self.seed)]. *)
Definition init_graph (self : BAShapes) : M BAShapes :=
  fun w =>
    match self_seed self with
    | Some s =>
        match barabasi_albert_graph lib (self_n self) (self_m self) (Random lib s) with
        | Ok (G, _) => Ok (set_G self G, w)
        | Err e => Err e
        end
    | None =>
        match barabasi_albert_graph lib (self_n self) (self_m self) (py_random w) with
        | Ok (G, g) => Ok (set_G self G, mkWorld g (torch_default w))
        | Err e => Err e
        end
    end.

(** The body of the one-hot [get_feature] once [random.choice] has returned
    [i]: [feature = torch.zeros(3); feature[i] = 1]. *)
Definition onehot_feature (i : nat) : result Feature :=
  py_setitem (replicate 3 (0 # 1)%Q) i (1 # 1)%Q.

Definition get_feature_onehot (node_idx : nat) : M Feature :=
  i <~ random_choice (seq 0 3) ;;
  liftM (onehot_feature i).

Definition get_feature_gaussian (node_idx : nat) : M Feature :=
  torch_normal 3.

Definition get_feature_network_stats (G : Graph) (deg_cent : list (nat * Q))
    (node_idx : nat) : M Feature :=
  liftM (d ← degree lib G node_idx;
         c ← clustering lib G node_idx;
         dc ← dict_get deg_cent node_idx;
         Ok (map (tensor_float lib) [d; c; dc])).

(** [feature_generator]: the per-node feature function of the configured
    strategy. *)
Definition feature_generator (self : BAShapes) : result (nat -> M Feature) :=
  if String.eqb (self_feature_method self) "network stats" then
    G ← getattr (self_G self);
    let deg_cent := degree_centrality lib G in
    Ok (get_feature_network_stats G deg_cent)
  else if String.eqb (self_feature_method self) "gaussian" then
    Ok get_feature_gaussian
  else if String.eqb (self_feature_method self) "onehot" then
    Ok get_feature_onehot
  else Err NotImplementedError.

(** [len(np.unique([G.nodes[ni]['shape'] for ni in nodes_in_khop
    if G.nodes[ni]['shape'] > 0]))] *)
Definition num_unique_houses (G : Graph) (nodes_in_khop : list nat) : result nat :=
  shapes ← traverse (node_shape G) nodes_in_khop;
  Ok (length (np_unique (filter (fun s => (0 < s)%Z) shapes))).

(** [x1 = [node_attr[i][1] for i in range(max_node)]] *)
Definition feature_column (G : Graph) : result (list Q) :=
  let max_node := length (nodes G) in
  let node_attr := get_node_attributes_x G in
  traverse (fun i => f ← dict_get node_attr i; py_index f 1) (seq 0 max_node).

Definition get_label_edge (self : BAShapes) (G : Graph) (node_idx : nat) : result Z :=
  k ← getattr (self_num_hops self);
  nodes_in_khop ← khop_subgraph_nx lib node_idx k G;
  num ← num_unique_houses G nodes_in_khop;
  Ok (Z.b2z (num =? 1)%nat).

(** The source writes [torch(...)] here, not [torch.tensor(...)]: once the
    argument is evaluated, calling the module raises [TypeError]. *)
Definition get_label_feature (x1 : list Q) (med1 : option Q) (node_idx : nat) : result Z :=
  xi ← py_index x1 node_idx;
  let _ := Z.b2z (gt_float xi med1) in
  Err TypeError.

(** [int(num_unique_houses == 1 and x1[node_idx] > med1)]: [and] evaluates
    its right operand only when the left one is true. *)
Definition get_label_edge_and_feature (self : BAShapes) (G : Graph)
    (x1 : list Q) (med1 : option Q) (node_idx : nat) : result Z :=
  k ← getattr (self_num_hops self);
  nodes_in_khop ← khop_subgraph_nx lib node_idx k G;
  num ← num_unique_houses G nodes_in_khop;
  if (num =? 1)%nat
  then xi ← py_index x1 node_idx; Ok (Z.b2z (gt_float xi med1))
  else Ok 0%Z.

(** [labeling_rule]: the per-node label function of the configured rule.
    The first statement averages coordinate 1 over all nodes; its value is
    not used, but it reads every node's feature. The function [get_label]
    defined next in the source is replaced by each supported branch before it
    can be called. *)
Definition labeling_rule (self : BAShapes) : result (nat -> result Z) :=
  G ← getattr (self_G self);
  _ ← traverse (fun i => f ← node_x G i; py_index f 1) (nodes G);
  if String.eqb (self_labeling_method self) "edge" then
    Ok (get_label_edge self G)
  else if String.eqb (self_labeling_method self) "feature" then
    x1 ← feature_column G;
    let med1 := np_median x1 in
    Ok (get_label_feature x1 med1)
  else if String.eqb (self_labeling_method self) "edge and feature" then
    x1 ← feature_column G;
    let med1 := np_median x1 in
    Ok (get_label_edge_and_feature self G x1 med1)
  else Err NotImplementedError.

(** [explanation_generator]: [gen(node_idx)] returns [None]. *)
Definition explanation_generator {Explanation : Type} (self : BAShapes)
    : nat -> option Explanation :=
  fun node_idx => None.

End WithLibrary.

(** ** The construction pipeline *)

Record Dataset : Type := mkDataset {
  ds_graph : Graph;
  ds_labels : list Z
}.

(** [G.nodes[i]['x'] = xs[i]] for the nodes in order. *)
Definition set_x (G : Graph) (xs : list Feature) : Graph :=
  mkGraph
    (zip_with (fun (p : nat * NodeData) (f : Feature) =>
                 (fst p, mkNodeData (Some f) (attr_shape (snd p))))
       (node_list G) xs)
    (edge_list G).

Section Pipeline.

Context (lib : Library).

Definition assign_features (self : BAShapes) : M BAShapes :=
  get_feature <~ liftM (feature_generator lib self) ;;
  G <~ liftM (getattr (self_G self)) ;;
  xs <~ traverseM get_feature (nodes G) ;;
  retM (set_G self (set_x G xs)).

Definition compute_labels (self : BAShapes) : result (list Z) :=
  get_label ← labeling_rule lib self;
  G ← getattr (self_G self);
  traverse get_label (nodes G).

(** Modelled from the spec: the constructor of the base class [ShapeGraph]
    is not part of the file. The spec gives its control flow: base graph
    generator, motif planter, feature generator, labeling engine, then the
    assembled dataset; the feature generator stores each node's vector in the
    graph before the labeling engine reads it. [generate_shape_graph] is the
    part before the labeling engine. *)
Definition generate_shape_graph (self : BAShapes) (call : SuperCall) : M BAShapes :=
  self <~ init_graph lib (set_num_hops self (sc_num_hops call)) ;;
  G <~ liftM (getattr (self_G self)) ;;
  G <~ plant_shapes lib call G ;;
  assign_features (set_G self G).

Definition ShapeGraph_init (self : BAShapes) (call : SuperCall) : M Dataset :=
  self <~ generate_shape_graph self call ;;
  ys <~ liftM (compute_labels self) ;;
  G <~ liftM (getattr (self_G self)) ;;
  retM (mkDataset G ys).


(** [BAShapes(...)]: the constructor of the class followed by the one of
    its base class. *)
Definition BAShapes_new (a : InitArgs) : M Dataset :=
  p <~ liftM (BAShapes_init lib a) ;;
  ShapeGraph_init (fst p) (snd p).

End Pipeline.

(** ** A reference library

    An executable stand-in for the collaborators, used to run the model on
    small inputs. *)

Module Reference.

Definition bare : NodeData := mkNodeData None None.

Fixpoint draw_targets (m source : nat) (g : Generator nat) : list nat * Generator nat :=
  match m with
  | O => ([], g)
  | S m' =>
      let (r, g1) := next g in
      let (ts, g2) := draw_targets m' source g1 in
      ((r mod source)%nat :: ts, g2)
  end.

Fixpoint grow (count source m : nat) (G : Graph) (g : Generator nat)
    : Graph * Generator nat :=
  match count with
  | O => (G, g)
  | S c =>
      let (ts, g1) := draw_targets m source g in
      grow c (S source) m
        (mkGraph (node_list G ++ [(source, bare)])
                 (edge_list G ++ map (pair source) ts)) g1
  end.

(** networkx rejects [m < 1] and [m >= n], starts from the star on [m + 1]
    nodes and attaches every further node to [m] drawn targets (here drawn
    without the degree weighting). For [n = m + 1] the result is the star,
    as in networkx. *)
Definition barabasi_albert_graph (n m : Z) (g : Generator nat)
    : result (Graph * Generator nat) :=
  if ((m <? 1) || (n <=? m))%Z then Err NetworkXError
  else
    let k := Z.to_nat m in
    let star := mkGraph (map (fun i => (i, bare)) (seq 0 (S k)))
                        (map (pair O) (seq 1 k)) in
    Ok (grow (Z.to_nat n - S k) (S k) k star g).

Definition Random (seed : Z) : Generator nat :=
  mkGenerator (fun k => (Z.to_nat (Z.abs seed) + k)%nat) 0.

Definition neighbours (G : Graph) (i : nat) : list nat :=
  remove_dups
    (omap (fun e : nat * nat =>
             if (fst e =? i)%nat then Some (snd e)
             else if (snd e =? i)%nat then Some (fst e) else None)
       (edge_list G)).

Definition adjacent (G : Graph) (u v : nat) : bool :=
  existsb (fun e : nat * nat =>
             ((fst e =? u) && (snd e =? v) || (fst e =? v) && (snd e =? u))%nat)
    (edge_list G).

Definition of_nat (k : nat) : Q := inject_Z (Z.of_nat k).

Definition degree (G : Graph) (i : nat) : result Q :=
  _ ← node_at G i; Ok (of_nat (length (neighbours G i))).

Definition triangles (G : Graph) (i : nat) : nat :=
  let ns := neighbours G i in
  length (filter (fun p : nat * nat => (fst p < snd p)%nat /\ adjacent G (fst p) (snd p) = true)
            (list_prod ns ns)).

Definition clustering (G : Graph) (i : nat) : result Q :=
  _ ← node_at G i;
  let d := length (neighbours G i) in
  if (d <? 2)%nat then Ok (0 # 1)%Q
  else Ok (Qdiv (of_nat (2 * triangles G i)) (of_nat (d * (d - 1)))).

Definition degree_centrality (G : Graph) : list (nat * Q) :=
  let k := length (nodes G) in
  map (fun i => (i, if (k <=? 1)%nat then (1 # 1)%Q
                    else Qdiv (of_nat (length (neighbours G i))) (of_nat (k - 1))))
    (nodes G).

Fixpoint reach (G : Graph) (k : nat) (i : nat) : list nat :=
  match k with
  | O => [i]
  | S k' =>
      let r := reach G k' i in
      remove_dups (r ++ concat (map (neighbours G) r))
  end.

(** Modelled from the spec: the helper [khop_subgraph_nx] of
    [graphxai.utils.nx_conversion] is not part of the file. The spec's k-hop
    neighborhood is the set of nodes reachable from the node within [k] edge
    traversals. *)
Definition khop_subgraph_nx (node_idx k : nat) (G : Graph) : result (list nat) :=
  _ ← node_at G node_idx; Ok (reach G k node_idx).

(** Modelled from the spec: the template [house] of [..utils.shapes] is not
    part of the file. The spec's house has 5 nodes, a square with a
    triangular roof. *)
Definition house : Motif :=
  mkMotif 5 [(0, 1); (1, 2); (2, 3); (3, 0); (0, 4); (1, 4)]%nat.

Definition tag_unplanted (G : Graph) : Graph :=
  mkGraph
    (map (fun p : nat * NodeData =>
            (fst p, mkNodeData (attr_x (snd p))
                      (Some (default 0%Z (attr_shape (snd p))))))
       (node_list G))
    (edge_list G).

(** One instance, the planting mechanics of the spec: brand-new motif nodes
    tagged with the instance number, the motif's edges, and one connector
    edge to an existing node chosen with [random.choice]. *)
Definition plant_one (shp : Motif) (G : Graph) (j : nat) : M Graph :=
  anchor <~ random_choice (nodes G) ;;
  let base := length (node_list G) in
  retM (mkGraph
          (node_list G ++
             map (fun i => ((base + i)%nat, mkNodeData None (Some (Z.of_nat j))))
               (seq 0 (motif_size shp)))
          (edge_list G ++ (anchor, base) ::
             map (fun e : nat * nat => ((base + fst e)%nat, (base + snd e)%nat))
               (motif_edges shp))).

Fixpoint plant_from (shp : Motif) (G : Graph) (js : list nat) : M Graph :=
  match js with
  | [] => retM G
  | j :: js' => G1 <~ plant_one shp G j ;; plant_from shp G1 js'
  end.

(** Modelled from the spec: the planter of the base class is not part of the
    file. This one plants [num_shapes] instances (none when it is [None]),
    numbered from 1, and tags all other nodes with shape 0. *)
Definition plant_shapes (call : SuperCall) (G : Graph) : M Graph :=
  let count := Z.to_nat (default 0%Z (sc_num_shapes call)) in
  G1 <~ plant_from (sc_insertion_shape call) G (seq 1 count) ;;
  retM (tag_unplanted G1).

(** Rounding to the nearest integer, ties to the even one. *)
Definition round_half_even (q : Q) : Z :=
  let f := Qfloor q in
  match Qcompare (Qminus q (inject_Z f)) (1 # 2)%Q with
  | Lt => f
  | Gt => (f + 1)%Z
  | Eq => if Z.even f then f else (f + 1)%Z
  end.

(** The largest [e] with [2 ^ e <= a], for [a > 0]. *)
Definition floor_log2 (a : Q) : Z :=
  let e := (Z.log2 (Qnum a) - Z.log2 (Zpos (Qden a)))%Z in
  if Qle_bool (Qpower (2 # 1)%Q e) a then e else (e - 1)%Z.

(** The conversion to single precision: the nearest number with a 24-bit
    significand (ties to even), on the subnormal grid below [2 ^ -126].
    Overflow, which no network statistic reaches, is not treated. *)
Definition tensor_float (q : Q) : Q :=
  if Qeq_bool q (0 # 1)%Q then (0 # 1)%Q
  else
    let a := Qabs q in
    let e := Z.max (floor_log2 a) (-126) in
    let ulp := Qpower (2 # 1)%Q (e - 23) in
    let r := Qmult (inject_Z (round_half_even (Qdiv a ulp))) ulp in
    Qred (if Qle_bool (0 # 1)%Q q then r else Qopp r).

Definition lib : Library :=
  mkLibrary barabasi_albert_graph Random degree clustering degree_centrality
    khop_subgraph_nx house plant_shapes tensor_float.

End Reference.

(** ** Properties named by the specification *)

Definition supported_features : list string :=
  ["network stats"; "gaussian"; "onehot"].

(** ['feature and edge'] is accepted as another name of ['edge and
    feature']. *)
Definition supported_rules : list string :=
  ["edge"; "feature"; "edge and feature"; "feature and edge"].

Definition unsupported_feature (name : string) : Prop :=
  str_lower name ∉ supported_features.

Definition unsupported_rule (name : string) : Prop :=
  str_lower name ∉ supported_rules.

(** Every node carries a feature vector that has a coordinate 1. *)
Definition featured (G : Graph) : Prop :=
  ∀ i, i ∈ nodes G → ∃ f c, node_x G i = Ok f ∧ f !! 1%nat = Some c.

(** Every listed node carries a shape tag. *)
Definition tagged (G : Graph) (ns : list nat) : Prop :=
  ∀ ni, ni ∈ ns → ∃ s, node_shape G ni = Ok s.

(** Among the listed nodes, the tags above the sentinel 0 are those of
    exactly one motif instance. *)
Definition one_motif_in (G : Graph) (ns : list nat) : Prop :=
  ∃ s, (0 < s)%Z ∧
       (∃ ni, ni ∈ ns ∧ node_shape G ni = Ok s) ∧
       (∀ ni s', ni ∈ ns → node_shape G ni = Ok s' → (0 < s')%Z → s' = s).

(** No listed node is motif-tagged. *)
Definition no_motif_in (G : Graph) (ns : list nat) : Prop :=
  ∀ ni s, ni ∈ ns → node_shape G ni = Ok s → (s <= 0)%Z.

(** The comparison the ['feature'] rule evaluates before it stops: coordinate
    1 of the node against the median of coordinate 1 over all nodes. *)
Definition feature_condition (G : Graph) (node_idx : nat) : result bool :=
  x1 ← feature_column G;
  xi ← py_index x1 node_idx;
  Ok (gt_float xi (np_median x1)).

(** The value stored under ['x'] at each node, in node order. *)
Definition features_of (G : Graph) : list (option Feature) :=
  map (fun p : nat * NodeData => attr_x (snd p)) (node_list G).

Definition invalid_base_parameters (n m : Z) : Prop :=
  (m >= n)%Z ∨ (n <= 0)%Z ∨ (m <= 0)%Z.

(** The law of [random.choice(seq)] is uniform over the positions of [seq];
    the probability that the chosen element satisfies [event]. *)
Definition prob_choice {A : Type} (seq : list A) (event : A -> bool) : Q :=
  Qdiv (inject_Z (Z.of_nat (length (filter (fun a => event a = true) seq))))
       (inject_Z (Z.of_nat (length seq))).

Fixpoint sum_Q (l : list Q) : Q :=
  match l with
  | [] => (0 # 1)%Q
  | a :: l' => Qplus a (sum_Q l')
  end.

(** The world in which the next draws of the generator of [random] return
    the values [ds] in turn; everything else is as in [w]. *)
Definition with_draws (w : World) (ds : list nat) : World :=
  mkWorld
    (mkGenerator
       (fun k =>
          if (cursor (py_random w) <=? k)%nat
          then default (outputs (py_random w) k) (ds !! (k - cursor (py_random w))%nat)
          else outputs (py_random w) k)
       (cursor (py_random w)))
    (torch_default w).

(** The sequences of [k] results that [k] calls of
    [random.choice(range(3))] can return; under the uniform law of
    [random.choice] and independent calls they are equally likely. *)
Fixpoint all_draws (k : nat) : list (list nat) :=
  match k with
  | O => [[]]
  | S k' => concat (map (fun d => map (cons d) (all_draws k')) (seq 0 3))
  end.

(** Entry [p] of the vector is 1. *)
Definition is_hot (f : Feature) (p : nat) : bool :=
  match f !! p with Some v => Qeq_bool v (1 # 1)%Q | None => false end.

(** The event that the vectors generated for a list of nodes have their 1
    at the positions [ps], node by node. *)
Definition hot_positions (ps : list nat) (r : result (list Feature * World)) : bool :=
  match r with
  | Ok (fs, _) =>
      (length fs =? length ps)%nat &&
      forallb (fun fp : Feature * nat => is_hot (fst fp) (snd fp)) (zip fs ps)
  | Err _ => false
  end.

(** The positions that the next [n] calls of [random.choice(range(3))]
    select, and the world after them. *)
Definition next_positions (w : World) (n : nat) : list nat :=
  map (fun j => (outputs (py_random w) (cursor (py_random w) + j) mod 3)%nat) (seq 0 n).

Definition after_draws (w : World) (n : nat) : World :=
  mkWorld (mkGenerator (outputs (py_random w)) (cursor (py_random w) + n))
    (torch_default w).

(** The next [n] triples of samples of torch's generator, and the world
    after them. *)
Definition next_samples (w : World) (n : nat) : list Feature :=
  map (fun j =>
         map (fun i => outputs (torch_default w) (cursor (torch_default w) + 3 * j + i)%nat)
           (seq 0 3))
    (seq 0 n).

Definition after_samples (w : World) (n : nat) : World :=
  mkWorld (py_random w)
    (mkGenerator (outputs (torch_default w)) (cursor (torch_default w) + 3 * n)).

(** The statistics of a node, as [get_feature] of ['network stats'] lists
    them. *)
Definition network_stats_of (lib : Library) (G : Graph) (v : nat) : result Feature :=
  d ← degree lib G v;
  c ← clustering lib G v;
  dc ← dict_get (degree_centrality lib G) v;
  Ok (map (tensor_float lib) [d; c; dc]).

(** The middle values of a column: the entries of the sorted column at
    positions [(N - 1) / 2] and [N / 2], which coincide for an odd count. *)
Definition lower_middle (l : list Q) : option Q :=
  sort_Q l !! ((length l - 1) / 2)%nat.

Definition upper_middle (l : list Q) : option Q :=
  sort_Q l !! (length l / 2)%nat.

(** The columns for which the median that NumPy computes in single
    precision lies between the two middle values, as the exact one does: an
    odd count, for which no mean is taken, or magnitudes of at most
    [2 ^ 126], whose sums do not overflow. *)
Definition median_between_middles (l : list Q) : Prop :=
  Nat.odd (length l) = true ∨
  Forall (fun x => Qle (Qabs x) (Qpower (2 # 1)%Q 126)) l.

(** The node keys are the integers below the number of nodes. *)
Definition contiguous (G : Graph) : Prop :=
  ∀ i, (i < length (nodes G))%nat → i ∈ nodes G.

(** [visualize], up to the drawing calls: the list
    [y = [ylist[i] for i in self.G.nodes]] handed to [nx.draw] as
    [node_color], for [ylist = self.graph.y.tolist()]. *)
Definition visualize_node_color (ylist : list Z) (G : Graph) : result (list Z) :=
  traverse (py_index ylist) (nodes G).

(** ** Concrete inputs *)

Definition counting : Generator nat := mkGenerator (fun k => k) 0.
Definition still (d : Q) : Generator Q := mkGenerator (fun _ => d) 0.

(** Two states of the world that differ in the generator of [random]. *)
Definition world0 : World := mkWorld counting (still (0 # 1)%Q).
Definition world1 : World := mkWorld (mkGenerator (fun k => k) 1) (still (0 # 1)%Q).

(** A third one, which differs from the first in torch's generator. *)
Definition world2 : World := mkWorld counting (still (1 # 1)%Q).

(** [BAShapes(1, 2, 1, 0, seed=7, feature_method=feature,
    labeling_method=rule)] *)
Definition args_small (feature rule : string) : InitArgs :=
  mkInitArgs 1 2 1 (Some 0%Z) "house" (Some 7%Z) "plant" "global"
    feature rule [].

(** [BAShapes(1, 4, 1, 1, shape=shape, seed=7)] *)
Definition args_shape (shape : string) : InitArgs :=
  mkInitArgs 1 4 1 (Some 1%Z) shape (Some 7%Z) "plant" "global"
    "network stats" "edge and feature" [].

(** The hyperparameters of the module's main block. *)
Definition args_upper_bound : InitArgs :=
  mkInitArgs 1 5000 1 None "house" None "plant" "neighborhood upper bound"
    "gaussian" "edge" [("shape_upper_bound", 1%Z)].

(** [BAShapes(1, n, m, 1, seed=7)] *)
Definition args_base (n m : Z) : InitArgs :=
  mkInitArgs 1 n m (Some 1%Z) "house" (Some 7%Z) "plant" "global"
    "network stats" "edge and feature" [].

(** A path 0 - 1 - 2 whose nodes 1 and 2 belong to motif instance 1. *)
Definition demo_graph : Graph :=
  mkGraph
    [(0, mkNodeData (Some [1 # 1; 0 # 1; 1 # 2]%Q) (Some 0%Z));
     (1, mkNodeData (Some [2 # 1; 1 # 1; 1 # 1]%Q) (Some 1%Z));
     (2, mkNodeData (Some [1 # 1; 0 # 1; 1 # 2]%Q) (Some 1%Z))]%nat
    [(0, 1); (1, 2)]%nat.

(** The same path before any feature is assigned. *)
Definition demo_graph_bare : Graph :=
  mkGraph
    [(0, mkNodeData None (Some 0%Z));
     (1, mkNodeData None (Some 1%Z));
     (2, mkNodeData None (Some 1%Z))]%nat
    [(0, 1); (1, 2)]%nat.

(** The path without its middle node: the keys are 0 and 2. *)
Definition demo_graph_gap : Graph :=
  mkGraph
    [(0, mkNodeData (Some [1 # 1; 0 # 1; 1 # 2]%Q) (Some 0%Z));
     (2, mkNodeData (Some [1 # 1; 0 # 1; 1 # 2]%Q) (Some 1%Z))]%nat
    [].

(** A single node with a feature and no shape tag. *)
Definition demo_graph_untagged : Graph :=
  mkGraph [(0, mkNodeData (Some [0 # 1; 0 # 1; 1 # 1]%Q) None)]%nat [].

Definition demo_self (rule : string) (G : Graph) : BAShapes :=
  mkBAShapes 3 1 (Some 7%Z) "network stats" rule (Some 1%nat) (Some G).

(** * Properties *)

(** ** Lists, results and [np.unique] *)

Lemma traverse_Forall2 {A B : Type} (f : A -> result B) (l : list A) (bs : list B) :
  traverse f l = Ok bs ↔ Forall2 (fun a b => f a = Ok b) l bs.
Proof.
  revert bs. induction l as [|a l IH]; intros bs; simpl.
  - split.
    + intros [= <-]. constructor.
    + intros H. by inversion H.
  - unfold mbind, result_bind. destruct (f a) as [b|e] eqn:Hfa.
    + destruct (traverse f l) as [bs'|e] eqn:Htr.
      * split.
        -- intros [= <-]. constructor; [done | by apply IH].
        -- intros H. inversion H as [|? b' ? bs'' Hb Hrest]; subst.
           apply IH in Hrest. congruence.
      * split; [done|]. intros H. inversion H as [|? ? ? bs'' _ Hrest]; subst.
        apply IH in Hrest. done.
    + split; [done|]. intros H. inversion H; congruence.
Qed.

Lemma traverse_total {A B : Type} (f : A -> result B) (l : list A) :
  (∀ a, a ∈ l → ∃ b, f a = Ok b) → ∃ bs, traverse f l = Ok bs.
Proof.
  induction l as [|a l IH]; intros Hall; simpl; [by eexists|].
  destruct (Hall a) as [b Hb]; [by left|].
  destruct IH as [bs Hbs]; [intros; apply Hall; by right|].
  exists (b :: bs). by rewrite Hb, Hbs.
Qed.

Lemma elem_of_insert_unique (a x : Z) (l : list Z) :
  x ∈ insert_unique a l ↔ x = a ∨ x ∈ l.
Proof.
  induction l as [|b l IH]; simpl.
  - rewrite list_elem_of_singleton, elem_of_nil. tauto.
  - destruct (Z.ltb_spec a b).
    + rewrite elem_of_cons. tauto.
    + destruct (Z.eqb_spec a b) as [->|Hne].
      * rewrite elem_of_cons. tauto.
      * rewrite !elem_of_cons, IH. tauto.
Qed.

Lemma elem_of_np_unique (x : Z) (l : list Z) : x ∈ np_unique l ↔ x ∈ l.
Proof.
  induction l as [|a l IH]; simpl; [tauto|].
  rewrite elem_of_insert_unique, elem_of_cons, IH. tauto.
Qed.

Lemma insert_unique_sorted (a : Z) (l : list Z) :
  StronglySorted Z.lt l → StronglySorted Z.lt (insert_unique a l).
Proof.
  induction 1 as [|b l Hs IH Hb]; simpl.
  - repeat constructor.
  - destruct (Z.ltb_spec a b).
    + constructor; [by constructor|].
      constructor; [done|]. eapply Forall_impl; [exact Hb|]. simpl; lia.
    + destruct (Z.eqb_spec a b) as [->|Hne]; [by constructor|].
      constructor; [done|].
      apply Forall_forall. intros x Hx.
      apply elem_of_insert_unique in Hx as [->|Hx]; [lia|].
      by eapply Forall_forall in Hb.
Qed.

Lemma np_unique_sorted (l : list Z) : StronglySorted Z.lt (np_unique l).
Proof. induction l; simpl; [constructor | by apply insert_unique_sorted]. Qed.

(** [np.unique] returns one value exactly when the list is not empty and all
    its values agree. *)
Lemma np_unique_length_one (l : list Z) :
  length (np_unique l) = 1%nat ↔ ∃ s, s ∈ l ∧ ∀ x, x ∈ l → x = s.
Proof.
  pose proof (np_unique_sorted l) as Hs.
  pose proof (fun x => elem_of_np_unique x l) as He.
  destruct (np_unique l) as [|s [|t u]]; simpl.
  - split; [done|]. intros (s & Hin & _). apply He in Hin.
    by apply elem_of_nil in Hin.
  - split; [|done]. intros _. exists s. split.
    + apply He. by left.
    + intros x Hx. apply He in Hx. by apply list_elem_of_singleton in Hx.
  - split; [done|]. intros (r & _ & Hall).
    assert (s = r) by (apply Hall, He; rewrite !elem_of_cons; tauto).
    assert (t = r) by (apply Hall, He; rewrite !elem_of_cons; tauto).
    inversion Hs as [|? ? _ Hlt]; subst. inversion Hlt; subst. lia.
Qed.

Example np_unique_sample : np_unique [3; 1; 3; 2; 1]%Z = [1; 2; 3]%Z.
Proof. reflexivity. Qed.

Example np_median_even : np_median [3 # 1; 1 # 1; 2 # 1; 5 # 1]%Q = Some (5 # 2)%Q.
Proof. reflexivity. Qed.

Example str_lower_sample : str_lower "Edge AND Feature" = "edge and feature".
Proof. reflexivity. Qed.

(** ** The constructor *)


Lemma BAShapes_init_house (lib : Library) (a : InitArgs) :
  str_lower (a_shape a) = "house" →
  ∃ self call, BAShapes_init lib a = Ok (self, call) ∧
    self_n self = a_n a ∧ self_m self = a_m a ∧ self_seed self = a_seed a ∧
    self_feature_method self = str_lower (a_feature_method a) ∧
    self_G self = None.
Proof.
  intros Hh. unfold BAShapes_init. rewrite Hh. simpl. eauto 10.
Qed.

(** C9: when the constructor reaches the base class (the shape is
    ['house']), the [num_shapes] it passes on is [n] if the planting policy
    is ['neighborhood upper bound'] and [num_shapes] was [None]; under every
    other policy, and whenever a number was given, it is the argument
    unchanged. *)
Theorem num_shapes_passed_on (lib : Library) (a : InitArgs) :
  str_lower (a_shape a) = "house" →
  ∃ self call, BAShapes_init lib a = Ok (self, call) ∧
    (a_plant_method a = "neighborhood upper bound" → a_num_shapes a = None →
       sc_num_shapes call = Some (a_n a)) ∧
    (a_plant_method a ≠ "neighborhood upper bound" →
       sc_num_shapes call = a_num_shapes a) ∧
    (∀ k, a_num_shapes a = Some k → sc_num_shapes call = Some k).
Proof.
  intros Hh. unfold BAShapes_init. rewrite Hh. simpl.
  do 2 eexists. split; [reflexivity|]. simpl.
  destruct (a_num_shapes a) as [k|] eqn:Hk.
  - repeat split; intros; congruence.
  - destruct (String.eqb_spec (a_plant_method a) "neighborhood upper bound");
      repeat split; intros; congruence.
Qed.

Lemma num_shapes_passed_on_witness :
  str_lower (a_shape args_upper_bound) = "house" ∧
  ∃ self call, BAShapes_init Reference.lib args_upper_bound = Ok (self, call) ∧
    (a_plant_method args_upper_bound = "neighborhood upper bound" →
       a_num_shapes args_upper_bound = None →
       sc_num_shapes call = Some (a_n args_upper_bound)) ∧
    (a_plant_method args_upper_bound ≠ "neighborhood upper bound" →
       sc_num_shapes call = a_num_shapes args_upper_bound) ∧
    (∀ k, a_num_shapes args_upper_bound = Some k → sc_num_shapes call = Some k).
Proof.
  split; [reflexivity|].
  apply (num_shapes_passed_on Reference.lib args_upper_bound). reflexivity.
Defined.

Example num_shapes_upper_bound_default :
  snd <$> BAShapes_init Reference.lib args_upper_bound
  = Ok (mkSuperCall "BAHouses" 1 (Some 5000%Z) "plant" "neighborhood upper bound"
          Reference.house [("shape_upper_bound", 1%Z)]).
Proof. reflexivity. Qed.

(** C4: with [shape='flag'] or [shape='circle'] the constructor stops with
    [UnboundLocalError], raised where the arguments of the base-class call
    are evaluated; it is not [NotImplementedError], and no graph is built. *)
Theorem unimplemented_shape_error :
  BAShapes_init Reference.lib (args_shape "flag") = Err UnboundLocalError ∧
  BAShapes_init Reference.lib (args_shape "circle") = Err UnboundLocalError ∧
  BAShapes_new Reference.lib (args_shape "flag") world0 = Err UnboundLocalError ∧
  BAShapes_new Reference.lib (args_shape "circle") world0 = Err UnboundLocalError ∧
  is_ok (BAShapes_new Reference.lib (args_shape "house") world0) = true.
Proof. repeat split; reflexivity. Qed.

(** C10: the function returned by [explanation_generator] yields [None]
    for every node index, whatever the object's configuration. *)
Theorem explanation_generator_none (Explanation : Type) (self : BAShapes)
    (node_idx : nat) :
  explanation_generator (Explanation := Explanation) self node_idx = None.
Proof. reflexivity. Qed.

(** ** The one-hot feature strategy *)

Lemma onehot_feature_values :
  onehot_feature 0 = Ok [1 # 1; 0 # 1; 0 # 1]%Q ∧
  onehot_feature 1 = Ok [0 # 1; 1 # 1; 0 # 1]%Q ∧
  onehot_feature 2 = Ok [0 # 1; 0 # 1; 1 # 1]%Q.
Proof. repeat split; reflexivity. Qed.

Lemma random_choice_range (k : nat) (w : World) :
  (0 < k)%nat →
  random_choice (seq 0 k) w =
    Ok ((outputs (py_random w) (cursor (py_random w)) mod k)%nat,
        mkWorld (snd (next (py_random w))) (torch_default w)).
Proof.
  intros Hk. unfold random_choice, next, py_index. simpl.
  rewrite length_seq.
  assert (Hlt : (outputs (py_random w) (cursor (py_random w)) mod k < k)%nat)
    by (apply Nat.mod_upper_bound; lia).
  by rewrite lookup_seq_lt.
Qed.

Lemma onehot_feature_shape (i : nat) :
  (i < 3)%nat →
  ∃ f, onehot_feature i = Ok f ∧
    length f = 3%nat ∧
    (∀ v, v ∈ f → v = (0 # 1)%Q ∨ v = (1 # 1)%Q) ∧
    (∀ j, f !! j = Some (1 # 1)%Q ↔ j = i) ∧
    length (filter (fun v => Qeq_bool v (1 # 1) = true) f) = 1%nat ∧
    Qeq (sum_Q f) (1 # 1).
Proof.
  intros Hi.
  assert (Hentries : ∀ (a b c v : Q), v ∈ [a; b; c] → v = a ∨ v = b ∨ v = c).
  { intros a b c v. rewrite !elem_of_cons, elem_of_nil. tauto. }
  destruct i as [|[|[|i]]]; [| | |lia].
  all: eexists; split; [reflexivity|]; split; [reflexivity|].
  all: split; [intros v Hv; apply Hentries in Hv; destruct Hv as [-> | [-> | ->]]; auto|].
  all: split; [|split; reflexivity].
  all: intros [|[|[|j]]]; simpl; split; intros; try done; try lia.
Qed.

(** ** The labeling rules *)

Lemma traverse_elem_of {A B : Type} (f : A -> result B) (l : list A) (bs : list B) (b : B) :
  traverse f l = Ok bs → (b ∈ bs ↔ ∃ a, a ∈ l ∧ f a = Ok b).
Proof.
  rewrite traverse_Forall2. induction 1 as [|a b' l bs Hab _ IH].
  - rewrite elem_of_nil. split; [done|]. intros (a & Ha & _).
    by apply elem_of_nil in Ha.
  - rewrite elem_of_cons, IH. split.
    + intros [->|(a' & Ha' & Hfa')].
      * exists a. split; [by left | done].
      * exists a'. split; [by right | done].
    + intros (a' & Ha' & Hfa'). apply elem_of_cons in Ha' as [->|Ha'].
      * left. congruence.
      * right. eauto.
Qed.

(** The first statement of [labeling_rule] succeeds on a graph whose nodes
    all carry features. *)
Lemma average_readable (G : Graph) :
  featured G →
  ∃ cs, traverse (fun i => f ← node_x G i; py_index f 1) (nodes G) = Ok cs.
Proof.
  intros Hf. apply traverse_total. intros i Hi.
  destruct (Hf i Hi) as (f & c & Hx & Hc).
  exists c. rewrite Hx. unfold mbind, result_bind, py_index. by rewrite Hc.
Qed.

(** The count of distinct positive tags among the listed nodes. *)
Lemma num_unique_houses_spec (G : Graph) (ns : list nat) :
  tagged G ns →
  ∃ num, num_unique_houses G ns = Ok num ∧
    (num = 1%nat ↔ one_motif_in G ns) ∧
    (no_motif_in G ns → num = 0%nat).
Proof.
  intros Ht. destruct (traverse_total (node_shape G) ns Ht) as [shapes Hs].
  unfold num_unique_houses. rewrite Hs. simpl. eexists. split; [reflexivity|].
  pose proof (fun s => traverse_elem_of _ _ _ s Hs) as Hmem.
  split.
  - rewrite np_unique_length_one. split.
    + intros (s & Hin & Hall). apply list_elem_of_filter in Hin as [Hpos Hin].
      exists s. split; [done|]. split; [by apply Hmem|].
      intros ni s' Hni Hsh Hpos'. apply Hall, list_elem_of_filter.
      split; [done|]. apply Hmem. eauto.
    + intros (s & Hpos & Hex & Hall). exists s. split.
      * apply list_elem_of_filter. split; [done|]. by apply Hmem.
      * intros x Hx. apply list_elem_of_filter in Hx as [Hxpos Hx].
        apply Hmem in Hx as (ni & Hni & Hsh). eauto.
  - intros Hnone.
    destruct (filter (fun s => (0 < s)%Z) shapes) as [|s rest] eqn:Hfil; [done|].
    assert (Hin : s ∈ filter (fun s => (0 < s)%Z) shapes) by (rewrite Hfil; by left).
    apply list_elem_of_filter in Hin as [Hpos Hin].
    apply Hmem in Hin as (ni & Hni & Hsh). specialize (Hnone ni s Hni Hsh). lia.
Qed.

(** C5: under the ['edge'] rule, on a graph whose nodes carry features and
    whose k-hop nodes carry shape tags, the label of a node is computed, is
    0 or 1, is 1 exactly when the positive shape tags found in its k-hop
    neighborhood ([k = num_hops]) are those of exactly one motif instance,
    and is 0 when the neighborhood holds no motif-tagged node. *)
Theorem edge_rule_label (lib : Library) (self : BAShapes) (G : Graph)
    (node_idx k : nat) (ns : list nat) :
  self_labeling_method self = "edge" →
  self_G self = Some G →
  self_num_hops self = Some k →
  featured G →
  khop_subgraph_nx lib node_idx k G = Ok ns →
  tagged G ns →
  ∃ get_label label,
    labeling_rule lib self = Ok get_label ∧
    get_label node_idx = Ok label ∧
    (label = 1%Z ∨ label = 0%Z) ∧
    (label = 1%Z ↔ one_motif_in G ns) ∧
    (no_motif_in G ns → label = 0%Z).
Proof.
  intros Hrule HG Hk Hfeat Hkhop Htag.
  destruct (average_readable G Hfeat) as [cs Hcs].
  destruct (num_unique_houses_spec G ns Htag) as (num & Hnum & Hone & Hnone).
  exists (get_label_edge lib self G), (Z.b2z (num =? 1)%nat).
  split.
  - unfold labeling_rule. rewrite HG. simpl. rewrite Hcs. simpl. by rewrite Hrule.
  - split.
    + unfold get_label_edge. rewrite Hk. simpl. rewrite Hkhop. simpl.
      by rewrite Hnum.
    + destruct (Nat.eqb_spec num 1) as [Heq|Hne]; simpl.
      * split; [by left|]. split; [by rewrite <- Hone|].
        intros Hno. apply Hnone in Hno. lia.
      * split; [by right|]. split; [|done].
        split; [done|]. intros Hm. by apply Hone in Hm.
Qed.

Lemma edge_rule_label_witness :
  self_labeling_method (demo_self "edge" demo_graph) = "edge" ∧
  tagged demo_graph [1; 0; 2]%nat ∧
  ∃ get_label label,
    labeling_rule Reference.lib (demo_self "edge" demo_graph) = Ok get_label ∧
    get_label 1%nat = Ok label ∧
    (label = 1%Z ∨ label = 0%Z) ∧
    (label = 1%Z ↔ one_motif_in demo_graph [1; 0; 2]%nat) ∧
    (no_motif_in demo_graph [1; 0; 2]%nat → label = 0%Z).
Proof.
  assert (Htag : tagged demo_graph [1; 0; 2]%nat).
  { intros ni Hni. rewrite !elem_of_cons, elem_of_nil in Hni.
    destruct Hni as [-> | [-> | [-> | []]]]; eexists; reflexivity. }
  split; [reflexivity|]. split; [exact Htag|].
  apply (edge_rule_label Reference.lib (demo_self "edge" demo_graph) demo_graph
           1%nat 1%nat [1; 0; 2]%nat); try reflexivity; [|exact Htag].
  intros i Hi. unfold nodes in Hi. simpl in Hi.
  rewrite !elem_of_cons, elem_of_nil in Hi.
  destruct Hi as [-> | [-> | [-> | []]]]; eexists _, _; split; reflexivity.
Defined.

Example edge_rule_demo :
  (get_label ← labeling_rule Reference.lib (demo_self "edge" demo_graph);
   traverse get_label (nodes demo_graph)) = Ok [1; 1; 1]%Z.
Proof. reflexivity. Qed.

(** Whatever the graph, the function returned under the ['feature'] rule
    returns no label at any node: it stops at the index or at the call of the
    module [torch]. *)
Lemma feature_rule_never_returns (lib : Library) (self : BAShapes)
    (get_label : nat -> result Z) (node_idx : nat) :
  self_labeling_method self = "feature" →
  labeling_rule lib self = Ok get_label →
  get_label node_idx = Err TypeError ∨ get_label node_idx = Err IndexError.
Proof.
  intros Hrule. unfold labeling_rule. rewrite Hrule.
  destruct (getattr (self_G self)) as [G|e]; simpl; [|done].
  destruct (traverse _ (nodes G)) as [cs|e]; simpl; [|done].
  destruct (feature_column G) as [x1|e]; simpl; [|done].
  intros [= <-]. unfold get_label_feature, py_index.
  destruct (x1 !! node_idx); simpl; auto.
Qed.

(** C1: on the three-node path, node 1 has coordinate 1 above the median
    (1 against 0), so its label under the ['feature'] rule should be 1; the
    returned function raises [TypeError] there, and so does a whole
    construction under that rule. *)
Theorem feature_rule_raises :
  feature_column demo_graph = Ok [0 # 1; 1 # 1; 0 # 1]%Q ∧
  np_median [0 # 1; 1 # 1; 0 # 1]%Q = Some (0 # 1)%Q ∧
  feature_condition demo_graph 1 = Ok true ∧
  (get_label ← labeling_rule Reference.lib (demo_self "feature" demo_graph);
   get_label 1%nat) = Err TypeError ∧
  BAShapes_new Reference.lib
    (mkInitArgs 1 4 1 (Some 1%Z) "house" (Some 7%Z) "plant" "global"
       "network stats" "feature" []) world0 = Err TypeError.
Proof. repeat split; reflexivity. Qed.

(** Under ['edge and feature'] a label is the conjunction of the ['edge']
    label with the comparison of coordinate 1 against the median, the
    comparison being evaluated only when the edge label is 1. *)
Lemma edge_and_feature_conjunction (lib : Library) (self : BAShapes) (G : Graph)
    (x1 : list Q) (med1 : option Q) (node_idx : nat) :
  get_label_edge_and_feature lib self G x1 med1 node_idx =
  (e ← get_label_edge lib self G node_idx;
   if (e =? 1)%Z
   then xi ← py_index x1 node_idx; Ok (Z.b2z (gt_float xi med1))
   else Ok 0%Z).
Proof.
  unfold get_label_edge_and_feature, get_label_edge.
  destruct (getattr (self_num_hops self)) as [k|e]; simpl; [|done].
  destruct (khop_subgraph_nx lib node_idx k G) as [ns|e]; simpl; [|done].
  destruct (num_unique_houses G ns) as [num|e]; simpl; [|done].
  by destruct (num =? 1)%nat.
Qed.

(** A label 1 under ['edge and feature'] comes with a label 1 under
    ['edge'] and a feature coordinate above the median. *)
Lemma edge_and_feature_one (lib : Library) (self : BAShapes) (G : Graph)
    (get_label : nat -> result Z) (node_idx : nat) :
  self_labeling_method self = "edge and feature" →
  self_G self = Some G →
  labeling_rule lib self = Ok get_label →
  get_label node_idx = Ok 1%Z →
  get_label_edge lib self G node_idx = Ok 1%Z ∧
  feature_condition G node_idx = Ok true.
Proof.
  intros Hrule HG. unfold labeling_rule, feature_condition. rewrite Hrule, HG. simpl.
  destruct (traverse _ (nodes G)) as [cs|e]; simpl; [|done].
  destruct (feature_column G) as [x1|e]; simpl; [|done].
  intros [= <-]. rewrite edge_and_feature_conjunction.
  destruct (get_label_edge lib self G node_idx) as [e|e]; simpl; [|done].
  destruct (Z.eqb_spec e 1) as [->|Hne]; [|done].
  destruct (py_index x1 node_idx) as [xi|e]; simpl; [|done].
  by destruct (gt_float xi (np_median x1)).
Qed.

(** C6: on the three-node path, node 1 has label 1 under ['edge and
    feature'] and under ['edge'], and its feature coordinate exceeds the
    median; the ['feature'] rule alone gives it no label but raises
    [TypeError]. *)
Theorem edge_and_feature_against_feature :
  (get_label ← labeling_rule Reference.lib (demo_self "edge and feature" demo_graph);
   get_label 1%nat) = Ok 1%Z ∧
  (get_label ← labeling_rule Reference.lib (demo_self "edge" demo_graph);
   get_label 1%nat) = Ok 1%Z ∧
  feature_condition demo_graph 1 = Ok true ∧
  (get_label ← labeling_rule Reference.lib (demo_self "feature" demo_graph);
   get_label 1%nat) = Err TypeError.
Proof. repeat split; reflexivity. Qed.

(** ** The base graph *)

(** [init_graph] passes [n] and [m] on as they are: what the graph
    generator rejects, [init_graph] rejects, and [self.G] stays unassigned. *)
Lemma init_graph_rejects (lib : Library) (self : BAShapes) (w : World) (e : exn) :
  (∀ g, barabasi_albert_graph lib (self_n self) (self_m self) g = Err e) →
  init_graph lib self w = Err e.
Proof.
  intros Hrej. unfold init_graph. destruct (self_seed self); by rewrite Hrej.
Qed.

Lemma invalid_base_parameters_cases (n m : Z) :
  invalid_base_parameters n m → (m < 1 ∨ n <= m)%Z.
Proof. unfold invalid_base_parameters. lia. Qed.

(** C8: given that the graph library rejects [m < 1] and [m >= n] with its
    [NetworkXError], as networkx documents, every construction with
    [m >= n] or a non-positive [n] or [m] fails: the constructor assigns no
    graph, [init_graph] fails before [self.G] is assigned, and the whole
    construction stops with that error (with [UnboundLocalError], earlier
    still, when the shape is not ['house']). *)
Theorem invalid_base_parameters_rejected (lib : Library) (a : InitArgs) (w : World) :
  (∀ n m g, (m < 1 ∨ n <= m)%Z →
     barabasi_albert_graph lib n m g = Err NetworkXError) →
  invalid_base_parameters (a_n a) (a_m a) →
  (∀ self call, BAShapes_init lib a = Ok (self, call) →
     self_G self = None ∧
     init_graph lib (set_num_hops self (sc_num_hops call)) w = Err NetworkXError ∧
     ShapeGraph_init lib self call w = Err NetworkXError) ∧
  (∃ e, BAShapes_new lib a w = Err e ∧
        (str_lower (a_shape a) = "house" → e = NetworkXError)).
Proof.
  intros Hlib Hinv. apply invalid_base_parameters_cases in Hinv.
  assert (Hself : ∀ self call, BAShapes_init lib a = Ok (self, call) →
     self_G self = None ∧
     init_graph lib (set_num_hops self (sc_num_hops call)) w = Err NetworkXError ∧
     ShapeGraph_init lib self call w = Err NetworkXError).
  { intros self call Hinit.
    assert (Hfields : self_G self = None ∧ self_n self = a_n a ∧ self_m self = a_m a).
    { unfold BAShapes_init in Hinit. repeat case_match; try done; by injection Hinit as <- <-. }
    destruct Hfields as (HG & Hn & Hm).
    assert (Hg : init_graph lib (set_num_hops self (sc_num_hops call)) w
                 = Err NetworkXError).
    { apply init_graph_rejects. intros g. simpl. rewrite Hn, Hm. by apply Hlib. }
    split; [done|]. split; [done|].
    unfold ShapeGraph_init, generate_shape_graph, bindM. by rewrite Hg. }
  split; [exact Hself|].
  unfold BAShapes_new, bindM, liftM.
  destruct (BAShapes_init lib a) as [[self call]|e] eqn:Hinit.
  - destruct (Hself self call eq_refl) as (_ & _ & Hsg). simpl. rewrite Hsg.
    by exists NetworkXError.
  - exists e. split; [done|]. intros Hh.
    destruct (BAShapes_init_house lib a Hh) as (self & call & Hok & _). congruence.
Qed.

Lemma invalid_base_parameters_rejected_witness :
  (∀ n m g, (m < 1 ∨ n <= m)%Z →
     barabasi_albert_graph Reference.lib n m g = Err NetworkXError) ∧
  invalid_base_parameters (a_n (args_base 2 2)) (a_m (args_base 2 2)) ∧
  (∀ self call, BAShapes_init Reference.lib (args_base 2 2) = Ok (self, call) →
     self_G self = None ∧
     init_graph Reference.lib (set_num_hops self (sc_num_hops call)) world0
       = Err NetworkXError ∧
     ShapeGraph_init Reference.lib self call world0 = Err NetworkXError) ∧
  (∃ e, BAShapes_new Reference.lib (args_base 2 2) world0 = Err e ∧
        (str_lower (a_shape (args_base 2 2)) = "house" → e = NetworkXError)).
Proof.
  assert (Hlib : ∀ n m g, (m < 1 ∨ n <= m)%Z →
            barabasi_albert_graph Reference.lib n m g = Err NetworkXError).
  { intros n m g Hnm. simpl. unfold Reference.barabasi_albert_graph.
    destruct (Z.ltb_spec m 1); [done|]. destruct (Z.leb_spec n m); [done|]. lia. }
  assert (Hinv : invalid_base_parameters (a_n (args_base 2 2)) (a_m (args_base 2 2))).
  { left. simpl. lia. }
  split; [exact Hlib|]. split; [exact Hinv|].
  exact (invalid_base_parameters_rejected Reference.lib (args_base 2 2) world0 Hlib Hinv).
Defined.

Example base_parameters_samples :
  BAShapes_new Reference.lib (args_base 2 2) world0 = Err NetworkXError ∧
  BAShapes_new Reference.lib (args_base 0 (-1)) world0 = Err NetworkXError ∧
  BAShapes_new Reference.lib (args_base 3 0) world0 = Err NetworkXError ∧
  is_ok (BAShapes_new Reference.lib (args_base 3 2) world0) = true.
Proof. repeat split; reflexivity. Qed.

(** ** Unsupported strategy and rule names *)

Lemma feature_generator_unsupported (lib : Library) (self : BAShapes) :
  self_feature_method self ∉ supported_features →
  feature_generator lib self = Err NotImplementedError.
Proof.
  unfold supported_features. rewrite !not_elem_of_cons. intros (H1 & H2 & H3 & _).
  unfold feature_generator.
  destruct (String.eqb_spec (self_feature_method self) "network stats"); [done|].
  destruct (String.eqb_spec (self_feature_method self) "gaussian"); [done|].
  by destruct (String.eqb_spec (self_feature_method self) "onehot").
Qed.

(** With an unsupported rule name [labeling_rule] returns no function; the
    error is [NotImplementedError] once the features of all nodes could be
    read. *)
Lemma labeling_rule_unsupported (lib : Library) (self : BAShapes) :
  self_labeling_method self ∉ ["edge"; "feature"; "edge and feature"] →
  is_ok (labeling_rule lib self) = false ∧
  (∀ G, self_G self = Some G → featured G →
     labeling_rule lib self = Err NotImplementedError).
Proof.
  rewrite !not_elem_of_cons. intros (H1 & H2 & H3 & _).
  assert (Hdispatch : ∀ G cs,
    self_G self = Some G →
    traverse (fun i => f ← node_x G i; py_index f 1) (nodes G) = Ok cs →
    labeling_rule lib self = Err NotImplementedError).
  { intros G cs HG Hcs. unfold labeling_rule. rewrite HG. simpl. rewrite Hcs. simpl.
    destruct (String.eqb_spec (self_labeling_method self) "edge"); [done|].
    destruct (String.eqb_spec (self_labeling_method self) "feature"); [done|].
    by destruct (String.eqb_spec (self_labeling_method self) "edge and feature"). }
  split.
  - destruct (self_G self) as [G|] eqn:HG.
    + destruct (traverse (fun i => f ← node_x G i; py_index f 1) (nodes G))
        as [cs|e] eqn:Hcs.
      * by rewrite (Hdispatch G cs).
      * unfold labeling_rule. rewrite HG. simpl. by rewrite Hcs.
    + unfold labeling_rule. by rewrite HG.
  - intros G HG Hfeat. destruct (average_readable G Hfeat) as [cs Hcs]. eauto.
Qed.

(** The constructor stores the lower-cased names. *)
Lemma BAShapes_init_names (lib : Library) (a : InitArgs) (self : BAShapes)
    (call : SuperCall) :
  BAShapes_init lib a = Ok (self, call) →
  self_feature_method self = str_lower (a_feature_method a) ∧
  self_labeling_method self =
    (if String.eqb (str_lower (a_labeling_method a)) "feature and edge"
     then "edge and feature" else str_lower (a_labeling_method a)).
Proof.
  unfold BAShapes_init. intros Hinit.
  repeat case_match; try done; by injection Hinit as <- <-.
Qed.

Lemma unsupported_rule_stored (name : string) :
  unsupported_rule name →
  (if String.eqb (str_lower name) "feature and edge"
   then "edge and feature" else str_lower name)
  ∉ ["edge"; "feature"; "edge and feature"].
Proof.
  unfold unsupported_rule, supported_rules. rewrite !not_elem_of_cons.
  intros (H1 & H2 & H3 & H4 & _).
  destruct (String.eqb_spec (str_lower name) "feature and edge"); [done|].
  repeat split; try done. apply not_elem_of_nil.
Qed.




Example unsupported_feature_sample :
  BAShapes_new Reference.lib (args_small "spectral" "edge") world0
    = Err NotImplementedError ∧
  (∃ self w,
     init_graph Reference.lib
       (mkBAShapes 2 1 (Some 7%Z) "spectral" "edge" (Some 1%nat) None) world0
       = Ok (self, w) ∧
     edge_list <$> self_G self = Some [(0, 1)]%nat).
Proof. split; [reflexivity|]. eexists _, _. split; reflexivity. Qed.

(** ** Reproducibility *)


Example onehot_builds :
  features_of ∘ ds_graph ∘ fst <$>
    BAShapes_new Reference.lib (args_small "onehot" "edge") world0
    = Ok [Some [1 # 1; 0 # 1; 0 # 1]%Q; Some [0 # 1; 1 # 1; 0 # 1]%Q] ∧
  features_of ∘ ds_graph ∘ fst <$>
    BAShapes_new Reference.lib (args_small "onehot" "edge") world1
    = Ok [Some [0 # 1; 1 # 1; 0 # 1]%Q; Some [0 # 1; 0 # 1; 1 # 1]%Q].
Proof. split; reflexivity. Qed.

(** * Further properties *)

(** ** Sorting and the median *)

Lemma Qle_bool_false (a b : Q) : Qle_bool a b = false → Qle b a.
Proof.
  intros H. apply Qlt_le_weak, Qnot_le_lt. intros Hle.
  apply Qle_bool_iff in Hle. congruence.
Qed.

Lemma Qgtb_true (a b : Q) : Qgtb a b = true ↔ Qlt b a.
Proof.
  unfold Qgtb. rewrite negb_true_iff. split.
  - intros H. apply Qnot_le_lt. intros Hle. apply Qle_bool_iff in Hle. congruence.
  - intros H. destruct (Qle_bool a b) eqn:E; [|done].
    apply Qle_bool_iff in E. exfalso. by apply (Qlt_not_le b a).
Qed.

Lemma insert_sorted_Q_perm (a : Q) (l : list Q) : insert_sorted_Q a l ≡ₚ a :: l.
Proof.
  induction l as [|b l IH]; simpl; [done|].
  destruct (Qle_bool a b); [done|]. rewrite IH. apply Permutation_swap.
Qed.

Lemma sort_Q_perm (l : list Q) : sort_Q l ≡ₚ l.
Proof.
  induction l as [|a l IH]; simpl; [done|].
  rewrite insert_sorted_Q_perm. by rewrite IH.
Qed.

Lemma insert_sorted_Q_sorted (a : Q) (l : list Q) :
  StronglySorted Qle l → StronglySorted Qle (insert_sorted_Q a l).
Proof.
  induction 1 as [|b l Hs IH Hb]; simpl.
  - repeat constructor.
  - destruct (Qle_bool a b) eqn:E.
    + apply Qle_bool_iff in E. constructor; [by constructor|].
      constructor; [done|]. eapply Forall_impl; [exact Hb|].
      intros x Hx. by apply Qle_trans with b.
    + apply Qle_bool_false in E. constructor; [done|].
      rewrite insert_sorted_Q_perm. by constructor.
Qed.

Lemma sort_Q_sorted (l : list Q) : StronglySorted Qle (sort_Q l).
Proof. induction l; simpl; [constructor | by apply insert_sorted_Q_sorted]. Qed.

Lemma sorted_lookup_le (s : list Q) (i j : nat) (x y : Q) :
  StronglySorted Qle s → (i <= j)%nat →
  s !! i = Some x → s !! j = Some y → Qle x y.
Proof.
  intros Hs. revert i j. induction Hs as [|a l Hs IH Ha]; intros i j Hij Hi Hj.
  - done.
  - destruct i as [|i], j as [|j]; simpl in *.
    + injection Hi as <-. injection Hj as <-. apply Qle_refl.
    + injection Hi as <-. eapply Forall_forall in Ha; [exact Ha|].
      apply list_elem_of_lookup. eauto.
    + lia.
    + apply (IH i j); [lia|done..].
Qed.

(** In a sorted list, the values above a bound that is at least the entry
    at position [j] all sit after position [j]. *)
Lemma count_above_sorted (s : list Q) (j : nat) (v m : Q) :
  StronglySorted Qle s → s !! j = Some v → Qle v m →
  (length (filter (fun x => Qgtb x m = true) s) <= length s - S j)%nat.
Proof.
  intros Hs Hj Hvm.
  rewrite <- (take_drop (S j) s) at 1. rewrite filter_app, length_app.
  assert (Hnil : filter (fun x => Qgtb x m = true) (take (S j) s) = []).
  { destruct (filter _ (take (S j) s)) as [|x rest] eqn:Hf; [done|].
    assert (Hin : x ∈ filter (fun x => Qgtb x m = true) (take (S j) s))
      by (rewrite Hf; by left).
    apply list_elem_of_filter in Hin as [Hgt Hin].
    apply elem_of_take in Hin as (i & Hi & Hlt).
    apply Qgtb_true in Hgt. exfalso. apply (Qlt_not_le m x); [done|].
    apply Qle_trans with v; [|done].
    apply (sorted_lookup_le s i j); [done|lia|done..]. }
  rewrite Hnil. simpl.
  etrans; [apply length_filter|]. by rewrite length_drop.
Qed.

Lemma half_sum_between (a b : Q) : Qle a b → Qle a (Qdiv (Qplus a b) (2 # 1)).
Proof.
  intros Hab. apply Qle_shift_div_l; [reflexivity|].
  assert (Hd : Qeq (a * (2 # 1))%Q (a + a)%Q) by ring. rewrite Hd.
  apply Qplus_le_r. exact Hab.
Qed.

(** At most half of the values are above the median. *)
Lemma count_above_median (l : list Q) (m : Q) :
  np_median l = Some m →
  (length (filter (fun x => Qgtb x m = true) l) <= length l / 2)%nat.
Proof.
  unfold np_median. intros Hm.
  rewrite <- (sort_Q_perm l) at 1. rewrite <- (Permutation_length (sort_Q_perm l)).
  pose proof (sort_Q_sorted l) as Hs.
  set (s := sort_Q l) in *. set (k := length s) in *.
  destruct (Nat.eqb_spec k 0) as [|Hk]; [done|].
  destruct (Nat.even k) eqn:Hev.
  - destruct (s !! (k / 2 - 1)%nat) as [a|] eqn:Ha; [|done].
    destruct (s !! (k / 2)%nat) as [b|] eqn:Hb; [|done].
    simpl in Hm. injection Hm as <-.
    assert (Hab : Qle a b) by (apply (sorted_lookup_le s (k / 2 - 1) (k / 2)); [done|lia|done..]).
    pose proof (count_above_sorted s _ a _ Hs Ha (half_sum_between a b Hab)) as Hc.
    apply Nat.even_spec in Hev as [q Hq]. fold k in Hc.
    assert (k / 2 = q)%nat by (rewrite Hq, Nat.mul_comm; apply Nat.div_mul; lia).
    lia.
  - pose proof (count_above_sorted s _ m _ Hs Hm (Qle_refl m)) as Hc. fold k in Hc.
    assert (Hodd : Nat.odd k = true) by (rewrite <- Nat.negb_even; by rewrite Hev).
    apply Nat.odd_spec in Hodd as [q Hq].
    assert (k / 2 = q)%nat.
    { rewrite Hq. rewrite Nat.add_comm, Nat.mul_comm.
      rewrite Nat.div_add by lia. reflexivity. }
    lia.
Qed.

(** The median is at least any lower bound of the values. *)
Lemma median_above_lower_bound (l : list Q) (m c : Q) :
  np_median l = Some m → (∀ x, x ∈ l → Qle c x) → Qle c m.
Proof.
  unfold np_median. intros Hm Hlow.
  assert (Hlow' : ∀ i x, sort_Q l !! i = Some x → Qle c x).
  { intros i x Hi. apply Hlow. rewrite <- (sort_Q_perm l).
    apply list_elem_of_lookup. eauto. }
  set (s := sort_Q l) in *. set (k := length s) in *.
  destruct (k =? 0)%nat; [done|].
  destruct (Nat.even k).
  - destruct (s !! (k / 2 - 1)%nat) as [a|] eqn:Ha; [|done].
    destruct (s !! (k / 2)%nat) as [b|] eqn:Hb; [|done].
    simpl in Hm. injection Hm as <-.
    apply Qle_shift_div_l; [reflexivity|].
    assert (Hd : Qeq (c * (2 # 1))%Q (c + c)%Q) by ring. rewrite Hd.
    apply Qplus_le_compat; eauto.
  - eauto.
Qed.

Lemma half_sum_below (a b : Q) : Qle a b → Qle (Qdiv (Qplus a b) (2 # 1)) b.
Proof.
  intros Hab. apply Qle_shift_div_r; [reflexivity|].
  assert (Hd : Qeq (b * (2 # 1))%Q (b + b)%Q) by ring. rewrite Hd.
  apply Qplus_le_l. exact Hab.
Qed.

(** The median of a non-empty column lies between its two middle values,
    and is both of them for an odd count. *)
Lemma median_between (l : list Q) :
  (0 < length l)%nat →
  ∃ lo hi m, lower_middle l = Some lo ∧ upper_middle l = Some hi ∧
             np_median l = Some m ∧ Qle lo m ∧ Qle m hi ∧
             (Nat.odd (length l) = true → lo = m ∧ hi = m).
Proof.
  intros Hpos. unfold lower_middle, upper_middle, np_median.
  rewrite <- (Permutation_length (sort_Q_perm l)) in *.
  pose proof (sort_Q_sorted l) as Hs.
  set (s := sort_Q l) in *. set (k := length s) in *.
  destruct (Nat.eqb_spec k 0) as [|_]; [lia|].
  destruct (lookup_lt_is_Some_2 s ((k - 1) / 2)) as [lo Hlo].
  { fold k. apply Nat.Div0.div_lt_upper_bound. lia. }
  destruct (lookup_lt_is_Some_2 s (k / 2)) as [hi Hhi].
  { fold k. apply Nat.Div0.div_lt_upper_bound. lia. }
  rewrite Hlo, Hhi.
  destruct (Nat.even k) eqn:Hev.
  - assert (Hidx : (k / 2 - 1 = (k - 1) / 2)%nat).
    { apply Nat.even_spec in Hev as [q Hq]. rewrite Hq.
      replace (2 * q / 2)%nat with q by (rewrite Nat.mul_comm, Nat.div_mul; lia).
      destruct q as [|q]; [lia|].
      replace (2 * S q - 1)%nat with (1 + q * 2)%nat by lia.
      rewrite Nat.div_add by lia. simpl. lia. }
    rewrite Hidx, Hlo. simpl.
    assert (Hle : Qle lo hi).
    { apply (sorted_lookup_le s ((k - 1) / 2) (k / 2)); [done| |done..].
      apply Nat.Div0.div_le_mono. lia. }
    exists lo, hi, (Qdiv (Qplus lo hi) (2 # 1)). do 3 (split; [done|]).
    split; [by apply half_sum_between|]. split; [by apply half_sum_below|].
    rewrite <- Nat.negb_even, Hev. done.
  - assert (Hidx : ((k - 1) / 2 = k / 2)%nat).
    { assert (Hodd : Nat.odd k = true) by (rewrite <- Nat.negb_even; by rewrite Hev).
      apply Nat.odd_spec in Hodd as [q Hq]. rewrite Hq.
      replace (2 * q + 1 - 1)%nat with (q * 2)%nat by lia.
      rewrite Nat.div_mul by lia.
      replace (2 * q + 1)%nat with (1 + q * 2)%nat by lia.
      rewrite Nat.div_add by lia. reflexivity. }
    rewrite Hidx in Hlo. assert (lo = hi) as -> by congruence.
    exists hi, hi, hi. do 3 (split; [done|]).
    split; [apply Qle_refl|]. split; [apply Qle_refl|]. done.
Qed.

(** ** More on results *)

Lemma traverse_each {A B : Type} (f : A -> result B) (l : list A) (bs : list B) :
  traverse f l = Ok bs → ∀ a, a ∈ l → ∃ b, f a = Ok b.
Proof.
  rewrite traverse_Forall2. intros HF a Ha.
  apply list_elem_of_lookup in Ha as [i Hi].
  destruct (Forall2_lookup_l _ _ _ _ _ HF Hi) as (b & _ & Hb). eauto.
Qed.

Lemma traverse_lookup {A B : Type} (f : A -> result B) (l : list A) (bs : list B)
    (i : nat) (b : B) :
  traverse f l = Ok bs → bs !! i = Some b → ∃ a, l !! i = Some a ∧ f a = Ok b.
Proof.
  rewrite traverse_Forall2. intros HF Hb.
  destruct (Forall2_lookup_r _ _ _ _ _ HF Hb) as (a & Ha & Hab). eauto.
Qed.

Lemma traverse_length {A B : Type} (f : A -> result B) (l : list A) (bs : list B) :
  traverse f l = Ok bs → length bs = length l.
Proof. rewrite traverse_Forall2. intros HF. symmetry. by eapply Forall2_length. Qed.

(** The exception of a comprehension is one its body can raise. *)
Lemma traverse_raises {A B : Type} (f : A -> result B) (l : list A) (e : exn) :
  traverse f l = Err e → ∃ a, a ∈ l ∧ f a = Err e.
Proof.
  induction l as [|a l IH]; simpl; [done|].
  destruct (f a) as [b|e'] eqn:Hfa; simpl.
  - destruct (traverse f l) as [bs|e'] eqn:Htr; simpl; [done|].
    intros [= ->]. destruct IH as (a' & Ha' & He); [done|].
    exists a'. split; [by right | done].
  - intros [= ->]. exists a. split; [by left | done].
Qed.

(** ** The shape of [labeling_rule] *)

(** A returned label function is that of the stored rule name, and every
    node's feature was read first. *)
Lemma labeling_rule_inv (lib : Library) (self : BAShapes) (get_label : nat -> result Z) :
  labeling_rule lib self = Ok get_label →
  ∃ G cs,
    self_G self = Some G ∧
    traverse (fun i => f ← node_x G i; py_index f 1) (nodes G) = Ok cs ∧
    ((self_labeling_method self = "edge" ∧ get_label = get_label_edge lib self G) ∨
     (self_labeling_method self = "feature" ∧
      ∃ x1, feature_column G = Ok x1 ∧
            get_label = get_label_feature x1 (np_median x1)) ∨
     (self_labeling_method self = "edge and feature" ∧
      ∃ x1, feature_column G = Ok x1 ∧
            get_label = get_label_edge_and_feature lib self G x1 (np_median x1))).
Proof.
  unfold labeling_rule.
  destruct (self_G self) as [G|]; simpl; [|done].
  destruct (traverse _ (nodes G)) as [cs|e] eqn:Hcs; simpl; [|done].
  intros Hgl. exists G, cs. split; [done|]. split; [done|].
  destruct (String.eqb_spec (self_labeling_method self) "edge") as [He|_].
  { left. split; [done|]. congruence. }
  destruct (String.eqb_spec (self_labeling_method self) "feature") as [Hf|_].
  { right; left. split; [done|].
    destruct (feature_column G) as [x1|e]; simpl in Hgl; [|done].
    exists x1. split; [done|]. congruence. }
  destruct (String.eqb_spec (self_labeling_method self) "edge and feature") as [Hb|_];
    [|done].
  right; right. split; [done|].
  destruct (feature_column G) as [x1|e]; simpl in Hgl; [|done].
  exists x1. split; [done|]. congruence.
Qed.

Lemma node_x_coordinate (G : Graph) (i : nat) (c : Q) :
  (f ← node_x G i; py_index f 1) = Ok c →
  ∃ f, node_x G i = Ok f ∧ f !! 1%nat = Some c.
Proof.
  destruct (node_x G i) as [f|e]; simpl; [|done].
  unfold py_index. destruct (f !! 1%nat) as [c'|] eqn:Hc; [|done].
  intros [= <-]. eauto.
Qed.

(** X1: [labeling_rule] returns a label function only for an object whose
    graph is built and whose nodes all carry a feature vector with a
    coordinate 1, under every rule, ['edge'] included. *)
Theorem labeling_rule_needs_features (lib : Library) (self : BAShapes)
    (get_label : nat -> result Z) :
  labeling_rule lib self = Ok get_label →
  ∃ G, self_G self = Some G ∧ featured G.
Proof.
  intros Hgl. destruct (labeling_rule_inv lib self get_label Hgl) as (G & cs & HG & Hcs & _).
  exists G. split; [done|]. intros i Hi.
  destruct (traverse_each _ _ _ Hcs i Hi) as [c Hc].
  apply node_x_coordinate in Hc as (f & Hf & Hc). eauto.
Qed.

(** X2: whatever the rule, a label that is returned is 0 or 1. *)
Theorem labels_are_binary (lib : Library) (self : BAShapes)
    (get_label : nat -> result Z) (node_idx : nat) (label : Z) :
  labeling_rule lib self = Ok get_label →
  get_label node_idx = Ok label →
  label = 0%Z ∨ label = 1%Z.
Proof.
  intros Hgl. destruct (labeling_rule_inv lib self get_label Hgl)
    as (G & cs & _ & _ & [[_ ->] | [(_ & x1 & _ & ->) | (_ & x1 & _ & ->)]]).
  - unfold get_label_edge.
    destruct (getattr (self_num_hops self)) as [k|e]; simpl; [|done].
    destruct (khop_subgraph_nx lib node_idx k G) as [ns|e]; simpl; [|done].
    destruct (num_unique_houses G ns) as [num|e]; simpl; [|done].
    intros [= <-]. destruct (num =? 1)%nat; auto.
  - unfold get_label_feature. destruct (py_index x1 node_idx); simpl; done.
  - unfold get_label_edge_and_feature.
    destruct (getattr (self_num_hops self)) as [k|e]; simpl; [|done].
    destruct (khop_subgraph_nx lib node_idx k G) as [ns|e]; simpl; [|done].
    destruct (num_unique_houses G ns) as [num|e]; simpl; [|done].
    destruct (num =? 1)%nat; [|intros [= <-]; auto].
    destruct (py_index x1 node_idx) as [xi|e]; simpl; [|done].
    intros [= <-]. destruct (gt_float xi (np_median x1)); auto.
Qed.

(** ** The feature column *)

Lemma assoc_attributes_absent (l : list (nat * NodeData)) (i : nat) :
  i ∉ map fst l →
  assoc (omap (fun p : nat * NodeData => f ← attr_x (snd p); Some (fst p, f)) l) i = None.
Proof.
  induction l as [|[j d] l IH]; simpl; [done|].
  rewrite not_elem_of_cons. intros [Hne Hnot].
  destruct (attr_x d) as [f|]; simpl; [|by apply IH].
  destruct (Nat.eqb_spec j i); [congruence | by apply IH].
Qed.

(** On a graph with distinct node keys, the dictionary of
    [nx.get_node_attributes(G, 'x')] answers as [G.nodes[i]['x']] does. *)
Lemma node_attributes_lookup (G : Graph) (i : nat) :
  NoDup (nodes G) → dict_get (get_node_attributes_x G) i = node_x G i.
Proof.
  unfold nodes, dict_get, get_node_attributes_x, node_x, node_at.
  induction (node_list G) as [|[j d] l IH]; simpl; [done|].
  rewrite NoDup_cons. intros [Hnot Hnd].
  destruct (Nat.eqb_spec j i) as [->|Hne]; simpl.
  - destruct (attr_x d) as [f|] eqn:Hd; simpl; rewrite ?Hd.
    + by rewrite Nat.eqb_refl.
    + by rewrite assoc_attributes_absent.
  - destruct (attr_x d) as [f|] eqn:Hd; simpl.
    + destruct (Nat.eqb_spec j i); [done | by apply IH].
    + by apply IH.
Qed.

Lemma node_x_is_node (G : Graph) (i : nat) (f : Feature) :
  node_x G i = Ok f → i ∈ nodes G.
Proof.
  unfold node_x, node_at, nodes.
  induction (node_list G) as [|[j d] l IH]; simpl; [done|].
  destruct (Nat.eqb_spec j i) as [->|Hne]; [by left|].
  intros H. right. by apply IH.
Qed.

Lemma feature_column_entries (G : Graph) (x1 : list Q) :
  NoDup (nodes G) →
  feature_column G = Ok x1 ↔
  length x1 = length (nodes G) ∧
  ∀ i, (i < length (nodes G))%nat →
    ∃ f c, node_x G i = Ok f ∧ f !! 1%nat = Some c ∧ x1 !! i = Some c.
Proof.
  intros Hnd. unfold feature_column. split.
  - intros Hcol. split.
    + rewrite (traverse_length _ _ _ Hcol). apply length_seq.
    + intros i Hi.
      destruct (lookup_lt_is_Some_2 x1 i) as [c Hc].
      { rewrite (traverse_length _ _ _ Hcol), length_seq. exact Hi. }
      destruct (traverse_lookup _ _ _ _ _ Hcol Hc) as (a & Ha & Hbody).
      apply lookup_seq in Ha as [-> _]. simpl in Hbody.
      rewrite node_attributes_lookup in Hbody by done.
      apply node_x_coordinate in Hbody as (f & Hf & Hfc). eauto.
  - intros [Hlen Hall]. apply traverse_Forall2.
    apply Forall2_same_length_lookup_2; [by rewrite length_seq|].
    intros i a c Ha Hc. apply lookup_seq in Ha as [-> Hi]. simpl.
    destruct (Hall i Hi) as (f & c' & Hf & Hfc & Hc').
    rewrite node_attributes_lookup by done. rewrite Hf. simpl.
    unfold py_index. rewrite Hfc. congruence.
Qed.

Lemma feature_column_total (G : Graph) :
  NoDup (nodes G) → contiguous G → featured G → ∃ x1, feature_column G = Ok x1.
Proof.
  intros Hnd Hcont Hfeat. apply traverse_total. intros i Hi.
  apply elem_of_seq in Hi. destruct (Hfeat i) as (f & c & Hf & Hc).
  { apply Hcont. lia. }
  exists c. rewrite node_attributes_lookup by done. rewrite Hf.
  unfold mbind, result_bind, py_index. by rewrite Hc.
Qed.

(** A feature column exists only over contiguous node keys. *)
Lemma feature_column_contiguous (G : Graph) (x1 : list Q) :
  NoDup (nodes G) → feature_column G = Ok x1 → contiguous G.
Proof.
  intros Hnd Hcol i Hi. apply feature_column_entries in Hcol as [_ Hall]; [|done].
  destruct (Hall i Hi) as (f & _ & Hf & _). by eapply node_x_is_node.
Qed.

(** X3: on a graph with distinct node keys, [x1] is built exactly when every
    integer below the node count is a node with a feature that has a
    coordinate 1; it then has one entry per node and entry [i] is coordinate
    1 of node [i]. *)
Theorem feature_column_spec (G : Graph) (x1 : list Q) :
  NoDup (nodes G) →
  feature_column G = Ok x1 ↔
  length x1 = length (nodes G) ∧
  ∀ i, (i < length (nodes G))%nat →
    ∃ f c, node_x G i = Ok f ∧ f !! 1%nat = Some c ∧ x1 !! i = Some c.
Proof. exact (feature_column_entries G x1). Qed.

(** ** Which names are accepted *)

Lemma supported_rule_stored (name : string) :
  str_lower name ∈ supported_rules →
  (if String.eqb (str_lower name) "feature and edge"
   then "edge and feature" else str_lower name)
  ∈ ["edge"; "feature"; "edge and feature"].
Proof.
  unfold supported_rules. rewrite !elem_of_cons, elem_of_nil.
  intros [-> | [-> | [-> | [-> | []]]]]; simpl; tauto.
Qed.

Lemma labeling_rule_supported (lib : Library) (self : BAShapes) (G : Graph) :
  self_labeling_method self ∈ ["edge"; "feature"; "edge and feature"] →
  self_G self = Some G →
  NoDup (nodes G) → contiguous G → featured G →
  is_ok (labeling_rule lib self) = true.
Proof.
  intros Hin HG Hnd Hcont Hfeat.
  destruct (average_readable G Hfeat) as [cs Hcs].
  destruct (feature_column_total G Hnd Hcont Hfeat) as [x1 Hx1].
  unfold labeling_rule. rewrite HG. simpl. rewrite Hcs. simpl. rewrite Hx1.
  rewrite !elem_of_cons, elem_of_nil in Hin.
  destruct Hin as [-> | [-> | [-> | []]]]; reflexivity.
Qed.

(** X4: on a graph with distinct, contiguous node keys whose nodes carry
    features, the object configured by the constructor gets a label function
    exactly when the lower-cased rule name is one of ['edge'], ['feature'],
    ['edge and feature'], ['feature and edge']. *)
Theorem rule_names_accepted (lib : Library) (a : InitArgs) (self : BAShapes)
    (call : SuperCall) (k : nat) (G : Graph) :
  BAShapes_init lib a = Ok (self, call) →
  NoDup (nodes G) → contiguous G → featured G →
  is_ok (labeling_rule lib (set_G (set_num_hops self k) G)) = true
  ↔ str_lower (a_labeling_method a) ∈ supported_rules.
Proof.
  intros Hinit Hnd Hcont Hfeat.
  destruct (BAShapes_init_names lib a self call Hinit) as [_ Hl]. split.
  - intros Hok.
    destruct (decide (str_lower (a_labeling_method a) ∈ supported_rules)) as [|Hno];
      [done|].
    destruct (labeling_rule_unsupported lib (set_G (set_num_hops self k) G)) as [Hbad _].
    { simpl. rewrite Hl. by apply unsupported_rule_stored. }
    congruence.
  - intros Hin. apply (labeling_rule_supported lib _ G); try done.
    simpl. rewrite Hl. by apply supported_rule_stored.
Qed.

(** X5: once the graph is built, the object configured by the constructor
    gets a feature function exactly when the lower-cased strategy name is one
    of ['network stats'], ['gaussian'], ['onehot']. *)
Theorem feature_names_accepted (lib : Library) (a : InitArgs) (self : BAShapes)
    (call : SuperCall) (k : nat) (G : Graph) :
  BAShapes_init lib a = Ok (self, call) →
  is_ok (feature_generator lib (set_G (set_num_hops self k) G)) = true
  ↔ str_lower (a_feature_method a) ∈ supported_features.
Proof.
  intros Hinit.
  destruct (BAShapes_init_names lib a self call Hinit) as [Hf _]. split.
  - intros Hok.
    destruct (decide (str_lower (a_feature_method a) ∈ supported_features)) as [|Hno];
      [done|].
    rewrite feature_generator_unsupported in Hok; [done|]. simpl. by rewrite Hf.
  - unfold supported_features. rewrite !elem_of_cons, elem_of_nil.
    unfold feature_generator. simpl. rewrite Hf.
    intros [-> | [-> | [-> | []]]]; reflexivity.
Qed.

(** ** The ['edge and feature'] rule *)

(** X6: under ['edge and feature'], on a graph with distinct, contiguous
    node keys, features and tagged k-hop nodes, the label of node [v] is
    computed and is 0 or 1; it is 0 unless the k-hop neighborhood holds the
    tags of exactly one motif instance. Where the median lies between the
    two middle values of coordinate 1 over all nodes, the label is 1 only if
    the neighborhood holds exactly one instance and the node's coordinate 1
    is above the lower middle value, and it is 1 whenever the neighborhood
    holds exactly one instance and the coordinate is above the upper middle
    value. For an odd number of nodes the two middle values are the median,
    and this decides the label. *)
Theorem edge_and_feature_label (lib : Library) (self : BAShapes) (G : Graph)
    (v k : nat) (ns : list nat) :
  self_labeling_method self = "edge and feature" →
  self_G self = Some G →
  self_num_hops self = Some k →
  NoDup (nodes G) → contiguous G → featured G →
  (v < length (nodes G))%nat →
  khop_subgraph_nx lib v k G = Ok ns →
  tagged G ns →
  ∃ get_label label x1 f xv lo hi,
    labeling_rule lib self = Ok get_label ∧
    get_label v = Ok label ∧
    feature_column G = Ok x1 ∧
    node_x G v = Ok f ∧ f !! 1%nat = Some xv ∧
    lower_middle x1 = Some lo ∧ upper_middle x1 = Some hi ∧ Qle lo hi ∧
    (Nat.odd (length (nodes G)) = true → lo = hi ∧ np_median x1 = Some hi) ∧
    (label = 0%Z ∨ label = 1%Z) ∧
    (¬ one_motif_in G ns → label = 0%Z) ∧
    (median_between_middles x1 →
       (label = 1%Z → one_motif_in G ns ∧ Qlt lo xv) ∧
       (one_motif_in G ns → Qlt hi xv → label = 1%Z)).
Proof.
  intros Hrule HG Hk Hnd Hcont Hfeat Hv Hkhop Htag.
  destruct (average_readable G Hfeat) as [cs Hcs].
  destruct (feature_column_total G Hnd Hcont Hfeat) as [x1 Hx1].
  destruct (proj1 (feature_column_entries G x1 Hnd) Hx1) as [Hlen Hall].
  destruct (Hall v Hv) as (f & xv & Hf & Hfc & Hxv).
  destruct (num_unique_houses_spec G ns Htag) as (num & Hnum & Hone & _).
  destruct (median_between x1) as (lo & hi & m & Hlo & Hhi & Hm & Hlom & Hmhi & Hodd);
    [lia|].
  exists (get_label_edge_and_feature lib self G x1 (np_median x1)).
  exists (if (num =? 1)%nat then Z.b2z (gt_float xv (np_median x1)) else 0%Z).
  exists x1, f, xv, lo, hi.
  split.
  { unfold labeling_rule. rewrite HG. simpl. rewrite Hcs. simpl.
    rewrite Hrule. simpl. by rewrite Hx1. }
  split.
  { unfold get_label_edge_and_feature. rewrite Hk. simpl. rewrite Hkhop. simpl.
    rewrite Hnum. simpl. destruct (num =? 1)%nat; [|done].
    unfold py_index. by rewrite Hxv. }
  do 5 (split; [done|]).
  split; [by apply Qle_trans with m|].
  split.
  { rewrite <- Hlen. intros Ho. destruct (Hodd Ho) as [-> ->]. done. }
  rewrite Hm. unfold gt_float.
  destruct (Nat.eqb_spec num 1) as [Heq|Hne].
  - apply Hone in Heq. destruct (Qgtb xv m) eqn:Hgt; simpl.
    + apply Qgtb_true in Hgt. split; [by right|]. split; [done|]. intros _. split.
      * intros _. split; [done|]. by apply Qle_lt_trans with m.
      * done.
    + split; [by left|]. split; [done|]. intros _. split; [done|].
      intros _ Hlt. assert (Hgt' : Qgtb xv m = true).
      { apply Qgtb_true. by apply Qle_lt_trans with hi. }
      congruence.
  - assert (Hnone : ¬ one_motif_in G ns) by (intros Hm'; by apply Hone in Hm').
    split; [by left|]. split; [done|]. intros _. split; [done|]. done.
Qed.


(** How many labels 1 a column of values allows. *)
Lemma count_implied {A B : Type} (P : A → Prop) (Q : B → Prop)
    `{!∀ x, Decision (P x)} `{!∀ y, Decision (Q y)} (l : list A) (k : list B) :
  Forall2 (fun x y => Q y → P x) l k →
  (length (filter Q k) <= length (filter P l))%nat.
Proof.
  induction 1 as [|x y l k Hxy _ IH]; [done|].
  rewrite !filter_cons. destruct (decide (Q y)) as [Hq|Hq].
  - rewrite decide_True by auto. simpl. lia.
  - destruct (decide (P x)); simpl; lia.
Qed.

Lemma edge_and_feature_one_above (lib : Library) (self : BAShapes) (G : Graph)
    (x1 : list Q) (med1 : option Q) (v : nat) :
  get_label_edge_and_feature lib self G x1 med1 v = Ok 1%Z →
  ∃ xv, x1 !! v = Some xv ∧ gt_float xv med1 = true.
Proof.
  unfold get_label_edge_and_feature.
  destruct (getattr (self_num_hops self)) as [k|e]; simpl; [|done].
  destruct (khop_subgraph_nx lib v k G) as [ns|e]; simpl; [|done].
  destruct (num_unique_houses G ns) as [num|e]; simpl; [|done].
  destruct (num =? 1)%nat; [|done].
  unfold py_index. destruct (x1 !! v) as [xv|]; simpl; [|done].
  destruct (gt_float xv med1) eqn:Hg; simpl; [intros _; eauto | done].
Qed.

(** X7: under ['edge and feature'], among the labels of the nodes
    [0 .. N-1], at most half are 1. *)
Theorem edge_and_feature_at_most_half (lib : Library) (self : BAShapes) (G : Graph)
    (get_label : nat -> result Z) (ys : list Z) :
  self_labeling_method self = "edge and feature" →
  self_G self = Some G →
  labeling_rule lib self = Ok get_label →
  traverse get_label (seq 0 (length (nodes G))) = Ok ys →
  (length (filter (fun y => y = 1%Z) ys) <= length (nodes G) / 2)%nat.
Proof.
  intros Hrule HG Hgl Hys.
  destruct (labeling_rule_inv lib self get_label Hgl)
    as (G' & cs & HG' & _ & [[Hr _] | [[Hr _] | (_ & x1 & Hx1 & ->)]]);
    [congruence..|].
  assert (G' = G) as -> by congruence.
  assert (Hlen1 : length x1 = length (nodes G)).
  { unfold feature_column in Hx1. rewrite (traverse_length _ _ _ Hx1). apply length_seq. }
  assert (Hleny : length ys = length (nodes G)).
  { rewrite (traverse_length _ _ _ Hys). apply length_seq. }
  assert (Hpt : ∀ i x y, x1 !! i = Some x → ys !! i = Some y → y = 1%Z →
                 gt_float x (np_median x1) = true).
  { intros i x y Hx Hy ->.
    destruct (traverse_lookup _ _ _ _ _ Hys Hy) as (a & Ha & Hlab).
    apply lookup_seq in Ha as [-> _]. simpl in Hlab.
    apply edge_and_feature_one_above in Hlab as (xv & Hxv & Hgt). congruence. }
  rewrite <- Hlen1. destruct (np_median x1) as [m|] eqn:Hm.
  - etrans; [|by apply (count_above_median x1 m)].
    apply (count_implied (fun x => Qgtb x m = true) (fun y => y = 1%Z)).
    apply Forall2_same_length_lookup_2; [congruence|]. exact Hpt.
  - assert (Hnone : filter (fun y => y = 1%Z) ys = []).
    { destruct (filter (fun y => y = 1%Z) ys) as [|y rest] eqn:Hfil; [done|].
      assert (Hin : y ∈ filter (fun y => y = 1%Z) ys) by (rewrite Hfil; by left).
      apply list_elem_of_filter in Hin as [-> Hin].
      apply list_elem_of_lookup in Hin as [i Hi].
      destruct (lookup_lt_is_Some_2 x1 i) as [x Hx].
      { apply lookup_lt_Some in Hi. lia. }
      by specialize (Hpt i x 1%Z Hx Hi eq_refl). }
    rewrite Hnone. simpl. lia.
Qed.

(** X8: under ['edge and feature'], a node whose coordinate 1 is the lowest
    of all nodes (in particular every node, when all coordinates agree) gets
    label 0 whenever it gets a label. *)
Theorem lowest_coordinate_label_zero (lib : Library) (self : BAShapes) (G : Graph)
    (get_label : nat -> result Z) (x1 : list Q) (v : nat) (xv : Q) (label : Z) :
  self_labeling_method self = "edge and feature" →
  self_G self = Some G →
  labeling_rule lib self = Ok get_label →
  feature_column G = Ok x1 →
  x1 !! v = Some xv →
  (∀ x, x ∈ x1 → Qle xv x) →
  get_label v = Ok label →
  label = 0%Z.
Proof.
  intros Hrule HG Hgl Hx1 Hxv Hlow Hlab.
  destruct (labeling_rule_inv lib self get_label Hgl)
    as (G' & cs & HG' & _ & [[Hr _] | [[Hr _] | (_ & x1' & Hx1' & ->)]]);
    [congruence..|].
  assert (G' = G) as -> by congruence.
  assert (x1' = x1) as -> by congruence.
  revert Hlab. unfold get_label_edge_and_feature.
  destruct (getattr (self_num_hops self)) as [k|e]; simpl; [|done].
  destruct (khop_subgraph_nx lib v k G) as [ns|e]; simpl; [|done].
  destruct (num_unique_houses G ns) as [num|e]; simpl; [|done].
  destruct (num =? 1)%nat; [|by intros [= <-]].
  unfold py_index. rewrite Hxv. simpl. intros [= <-].
  destruct (np_median x1) as [m|] eqn:Hm; simpl; [|done].
  destruct (Qgtb xv m) eqn:Hgt; [|done].
  apply Qgtb_true in Hgt. exfalso. apply (Qlt_not_le m xv); [done|].
  by apply (median_above_lower_bound x1).
Qed.

(** ** Missing shape tags *)

Lemma node_shape_raises (G : Graph) (i : nat) (e : exn) :
  node_shape G i = Err e → e = KeyError.
Proof.
  unfold node_shape, node_at.
  destruct (assoc (node_list G) i) as [d|]; simpl; [|congruence].
  destruct (attr_shape d); congruence.
Qed.

Lemma num_unique_houses_untagged (G : Graph) (ns : list nat) :
  ¬ tagged G ns → num_unique_houses G ns = Err KeyError.
Proof.
  intros Hnot. unfold num_unique_houses.
  destruct (traverse (node_shape G) ns) as [shapes|e] eqn:Htr; simpl.
  - exfalso. apply Hnot. intros ni Hni. by eapply traverse_each.
  - apply traverse_raises in Htr as (a & _ & Ha).
    by rewrite (node_shape_raises G a e Ha).
Qed.

(** X9: when some node of the k-hop list has no ['shape'] tag (or is not a
    node of the graph), the label functions of ['edge'] and of ['edge and
    feature'] raise [KeyError]; when all are tagged, the count of motifs is
    computed. *)
Theorem untagged_neighbour_raises (lib : Library) (self : BAShapes) (G : Graph)
    (v k : nat) (ns : list nat) :
  self_num_hops self = Some k →
  khop_subgraph_nx lib v k G = Ok ns →
  (tagged G ns ↔ ∃ num, num_unique_houses G ns = Ok num) ∧
  (¬ tagged G ns →
     get_label_edge lib self G v = Err KeyError ∧
     ∀ x1 med1, get_label_edge_and_feature lib self G x1 med1 v = Err KeyError).
Proof.
  intros Hk Hkhop. split.
  - split.
    + intros Ht. destruct (num_unique_houses_spec G ns Ht) as (num & Hnum & _). eauto.
    + intros [num Hnum] ni Hni. unfold num_unique_houses in Hnum.
      destruct (traverse (node_shape G) ns) as [shapes|e] eqn:Htr; [|done].
      by eapply traverse_each.
  - intros Hnot. apply num_unique_houses_untagged in Hnot.
    unfold get_label_edge, get_label_edge_and_feature.
    rewrite Hk. simpl. rewrite Hkhop. simpl. by rewrite Hnot.
Qed.

(** ** The feature strategies *)

Lemma torch_normal_three (w : World) :
  torch_normal 3 w =
  Ok ([outputs (torch_default w) (cursor (torch_default w));
       outputs (torch_default w) (S (cursor (torch_default w)));
       outputs (torch_default w) (S (S (cursor (torch_default w))))],
      mkWorld (py_random w)
        (mkGenerator (outputs (torch_default w))
           (S (S (S (cursor (torch_default w))))))).
Proof. reflexivity. Qed.

Lemma get_feature_onehot_inv (v : nat) (w w' : World) (f : Feature) :
  get_feature_onehot v w = Ok (f, w') →
  length f = 3%nat ∧
  w' = mkWorld (mkGenerator (outputs (py_random w)) (S (cursor (py_random w))))
         (torch_default w).
Proof.
  unfold get_feature_onehot, bindM. rewrite random_choice_range by lia.
  set (i := (outputs (py_random w) (cursor (py_random w)) mod 3)%nat).
  assert (Hlt : (i < 3)%nat) by (apply Nat.mod_upper_bound; lia).
  destruct (onehot_feature_shape i Hlt) as (f' & Hf' & Hlen & _).
  unfold liftM. rewrite Hf'. intros [= <- <-]. done.
Qed.

Lemma get_feature_network_stats_inv (lib : Library) (G : Graph)
    (deg_cent : list (nat * Q)) (v : nat) (w w' : World) (f : Feature) :
  get_feature_network_stats lib G deg_cent v w = Ok (f, w') ↔
  w' = w ∧ ∃ d c dc, degree lib G v = Ok d ∧ clustering lib G v = Ok c ∧
                     assoc deg_cent v = Some dc ∧
                     f = map (tensor_float lib) [d; c; dc].
Proof.
  unfold get_feature_network_stats, liftM, dict_get. split.
  - destruct (degree lib G v) as [d|e]; simpl; [|done].
    destruct (clustering lib G v) as [c|e]; simpl; [|done].
    destruct (assoc deg_cent v) as [dc|]; simpl; [|done].
    intros [= <- <-]. split; [done|]. by exists d, c, dc.
  - intros (-> & d & c & dc & -> & -> & -> & ->). done.
Qed.

(** X10: every feature vector that a strategy returns has length 3. *)
Theorem feature_vectors_have_length_three (lib : Library) (self : BAShapes)
    (get_feature : nat -> M Feature) (v : nat) (w w' : World) (f : Feature) :
  feature_generator lib self = Ok get_feature →
  get_feature v w = Ok (f, w') →
  length f = 3%nat.
Proof.
  unfold feature_generator.
  destruct (String.eqb (self_feature_method self) "network stats").
  { destruct (getattr (self_G self)) as [G|e]; simpl; [|done].
    intros [= <-] Hf. apply get_feature_network_stats_inv in Hf
      as (_ & d & c & dc & _ & _ & _ & ->). done. }
  destruct (String.eqb (self_feature_method self) "gaussian").
  { intros [= <-]. unfold get_feature_gaussian. rewrite torch_normal_three.
    by intros [= <- _]. }
  destruct (String.eqb (self_feature_method self) "onehot"); [|done].
  intros [= <-] Hf. by apply get_feature_onehot_inv in Hf as [? _].
Qed.

(** X12: before the graph is built, [feature_generator] returns a function
    for ['gaussian'] and ['onehot'] and raises [AttributeError] for
    ['network stats']; no other stored name gives a function. *)
Theorem feature_generator_before_graph (lib : Library) (self : BAShapes) :
  self_G self = None →
  (self_feature_method self = "network stats" →
     feature_generator lib self = Err AttributeError) ∧
  (is_ok (feature_generator lib self) = true ↔
     self_feature_method self = "gaussian" ∨ self_feature_method self = "onehot").
Proof.
  intros HG. unfold feature_generator. rewrite HG. simpl. split.
  - by intros ->.
  - destruct (String.eqb_spec (self_feature_method self) "network stats") as [->|H1].
    { simpl. split; [done|]. by intros [|]. }
    destruct (String.eqb_spec (self_feature_method self) "gaussian") as [->|H2].
    { simpl. split; [by left|done]. }
    destruct (String.eqb_spec (self_feature_method self) "onehot") as [->|H3].
    { simpl. split; [by right|done]. }
    simpl. split; [done|]. by intros [|].
Qed.

(** X13: under ['network stats'], once the graph is built, the vector of a
    node is [[degree, clustering, degree centrality]] converted to single
    precision; it is returned exactly when networkx returns the degree and
    the clustering of the node and the centrality dictionary has the node,
    and no generator is touched. *)
Theorem network_stats_feature (lib : Library) (self : BAShapes) (G : Graph) :
  self_feature_method self = "network stats" →
  self_G self = Some G →
  ∃ get_feature,
    feature_generator lib self = Ok get_feature ∧
    ∀ v w f w',
      get_feature v w = Ok (f, w') ↔
      w' = w ∧ ∃ d c dc, degree lib G v = Ok d ∧ clustering lib G v = Ok c ∧
                         assoc (degree_centrality lib G) v = Some dc ∧
                         f = [tensor_float lib d; tensor_float lib c;
                              tensor_float lib dc].
Proof.
  intros Hm HG. unfold feature_generator. rewrite Hm, HG. simpl.
  eexists. split; [reflexivity|]. intros v w f w'.
  apply get_feature_network_stats_inv.
Qed.

(** ** The colours of [visualize] *)

(** X14: the colour list of [visualize] has one entry per node, the entry of
    a node being [ylist] at the node's key; it is built exactly when every
    node key is below [len(ylist)], and the method raises [IndexError]
    otherwise. *)
Theorem visualize_node_color_spec (ylist : list Z) (G : Graph) :
  (∀ y, visualize_node_color ylist G = Ok y →
     length y = length (nodes G) ∧
     ∀ j i, nodes G !! j = Some i → y !! j = ylist !! i ∧ (i < length ylist)%nat) ∧
  (∀ e, visualize_node_color ylist G = Err e →
     e = IndexError ∧ ∃ i, i ∈ nodes G ∧ (length ylist <= i)%nat) ∧
  ((∀ i, i ∈ nodes G → (i < length ylist)%nat) →
     ∃ y, visualize_node_color ylist G = Ok y).
Proof.
  unfold visualize_node_color. split; [|split].
  - intros y Hy. split; [by eapply traverse_length|].
    intros j i Hj. apply traverse_Forall2 in Hy.
    destruct (Forall2_lookup_l _ _ _ _ _ Hy Hj) as (c & Hc & Hidx).
    unfold py_index in Hidx. destruct (ylist !! i) eqn:Hi; [|done].
    split; [congruence|]. by eapply lookup_lt_Some.
  - intros e He. apply traverse_raises in He as (i & Hin & Hi).
    unfold py_index in Hi. destruct (ylist !! i) eqn:Hl; [done|].
    split; [congruence|]. exists i. split; [done|]. by apply lookup_ge_None.
  - intros Hall. apply traverse_total. intros i Hi.
    destruct (lookup_lt_is_Some_2 ylist i (Hall i Hi)) as [c Hc].
    exists c. unfold py_index. by rewrite Hc.
Qed.

(** ** Names as the constructor stores them *)

Lemma ascii_lower_idempotent (c : ascii) : ascii_lower (ascii_lower c) = ascii_lower c.
Proof. destruct c as [[] [] [] [] [] [] [] []]; reflexivity. Qed.

Lemma ascii_lower_high (c : ascii) :
  (128 <= nat_of_ascii (ascii_lower c))%nat → ascii_lower c = c.
Proof. destruct c as [[] [] [] [] [] [] [] []]; vm_compute; intros; try reflexivity; lia. Qed.

Lemma is_kelvin_high (c1 c2 c3 : ascii) :
  is_kelvin c1 c2 c3 = true →
  (128 <= nat_of_ascii c1 ∧ 128 <= nat_of_ascii c2 ∧ 128 <= nat_of_ascii c3)%nat.
Proof.
  unfold is_kelvin. rewrite !andb_true_iff, !Nat.eqb_eq. lia.
Qed.

Lemma str_lower_cons (c : ascii) (s : string) :
  (∀ c2 c3 s3, s = String c2 (String c3 s3) → is_kelvin c c2 c3 = false) →
  str_lower (String c s) = String (ascii_lower c) (str_lower s).
Proof.
  intros Hk. destruct s as [|c2 [|c3 s3]]; try reflexivity.
  simpl. by rewrite (Hk c2 c3 s3 eq_refl).
Qed.

Lemma str_lower_head_high (s t : string) (b : ascii) :
  str_lower s = String b t → (128 <= nat_of_ascii b)%nat →
  ∃ s', s = String b s' ∧ str_lower s' = t ∧
        ∀ c2 c3 s3, s' = String c2 (String c3 s3) → is_kelvin b c2 c3 = false.
Proof.
  intros Hs Hb. destruct s as [|c s1]; [done|].
  destruct s1 as [|c2 [|c3 s3]].
  - simpl in Hs. injection Hs as <- <-. rewrite ascii_lower_high by done.
    eexists. split; [reflexivity|]. split; [reflexivity|]. intros; discriminate.
  - simpl in Hs. injection Hs as <- <-. rewrite ascii_lower_high by done.
    eexists. split; [reflexivity|]. split; [reflexivity|]. intros; discriminate.
  - revert Hs. simpl. destruct (is_kelvin c c2 c3) eqn:Hk.
    + intros [= <- _]. vm_compute in Hb. lia.
    + intros [= <- <-]. rewrite ascii_lower_high in * by done.
      eexists. split; [reflexivity|]. split; [reflexivity|].
      intros ? ? ? [= <- <- <-]. exact Hk.
Qed.

Lemma str_lower_idempotent (s : string) : str_lower (str_lower s) = str_lower s.
Proof.
  remember (String.length s) as n eqn:Hn. revert s Hn.
  induction n as [n IH] using lt_wf_ind. intros s Hn.
  destruct s as [|c s1]; [reflexivity|].
  assert (Hgen : str_lower (String (ascii_lower c) (str_lower s1))
                 = String (ascii_lower c) (str_lower s1) ∨
                 ∃ c2 c3 s3, s1 = String c2 (String c3 s3) ∧ is_kelvin c c2 c3 = true).
  { destruct (str_lower s1) as [|b2 [|b3 t3]] eqn:Ht.
    - left. simpl. by rewrite ascii_lower_idempotent.
    - left. assert (H1 : str_lower (str_lower s1) = str_lower s1)
        by (apply (IH (String.length s1)); [simpl in Hn; lia | done]).
      rewrite Ht in H1. rewrite str_lower_cons by (intros; discriminate).
      by rewrite ascii_lower_idempotent, H1.
    - assert (H1 : str_lower (str_lower s1) = str_lower s1)
        by (apply (IH (String.length s1)); [simpl in Hn; lia | done]).
      rewrite Ht in H1.
      destruct (is_kelvin (ascii_lower c) b2 b3) eqn:Hk.
      + right. apply is_kelvin_high in Hk as Hhigh. destruct Hhigh as (Hc & Hb2 & Hb3).
        rewrite (ascii_lower_high c Hc) in Hk.
        destruct (str_lower_head_high _ _ _ Ht Hb2) as (s2 & -> & Ht2 & _).
        destruct (str_lower_head_high _ _ _ Ht2 Hb3) as (s3 & -> & _ & _).
        eauto.
      + left. rewrite str_lower_cons.
        * by rewrite ascii_lower_idempotent, H1.
        * intros ? ? ? [= <- <- <-]. exact Hk. }
  destruct s1 as [|c2 [|c3 s3]].
  - reflexivity || (simpl; by rewrite ascii_lower_idempotent).
  - destruct Hgen as [Hgen | (? & ? & ? & [=] & _)]. exact Hgen.
  - destruct (is_kelvin c c2 c3) eqn:Hk.
    + change (str_lower (String c (String c2 (String c3 s3))))
        with (if is_kelvin c c2 c3 then String "k" (str_lower s3)
              else String (ascii_lower c) (str_lower (String c2 (String c3 s3)))).
      rewrite Hk. rewrite str_lower_cons.
      * f_equal. apply (IH (String.length s3)); [simpl in Hn; lia | done].
      * intros. reflexivity.
    + change (str_lower (String c (String c2 (String c3 s3))))
        with (if is_kelvin c c2 c3 then String "k" (str_lower s3)
              else String (ascii_lower c) (str_lower (String c2 (String c3 s3)))).
      rewrite Hk.
      destruct Hgen as [Hgen | (? & ? & ? & [= <- <- <-] & Hk')]; [exact Hgen|congruence].
Qed.

(** X15: the constructor stores lower-case names, never stores ['feature and
    edge'], and distinguishes neither the shape, the strategy nor the rule by
    letter case: arguments that agree up to the case of these three names
    configure the same object and the same base-class call. *)
Theorem constructor_normalises_names (lib : Library) (a : InitArgs)
    (self : BAShapes) (call : SuperCall) :
  BAShapes_init lib a = Ok (self, call) →
  str_lower (self_feature_method self) = self_feature_method self ∧
  str_lower (self_labeling_method self) = self_labeling_method self ∧
  self_labeling_method self ≠ "feature and edge" ∧
  ∀ shape feature rule,
    str_lower shape = str_lower (a_shape a) →
    str_lower feature = str_lower (a_feature_method a) →
    str_lower rule = str_lower (a_labeling_method a) →
    BAShapes_init lib
      (mkInitArgs (a_num_hops a) (a_n a) (a_m a) (a_num_shapes a) shape (a_seed a)
         (a_insert_method a) (a_plant_method a) feature rule (a_kwargs a))
    = Ok (self, call).
Proof.
  intros Hinit.
  destruct (BAShapes_init_names lib a self call Hinit) as [Hf Hl].
  split; [by rewrite Hf, str_lower_idempotent|]. split; [|split].
  - rewrite Hl. destruct (String.eqb (str_lower (a_labeling_method a)) "feature and edge");
      [done | apply str_lower_idempotent].
  - rewrite Hl.
    destruct (String.eqb_spec (str_lower (a_labeling_method a)) "feature and edge");
      [done | congruence].
  - intros shape feature rule Hs Hfe Hr. rewrite <- Hinit.
    unfold BAShapes_init. simpl. by rewrite Hs, Hfe, Hr.
Qed.

(** ** Node keys that are not contiguous *)

Lemma node_x_raises (G : Graph) (i : nat) (e : exn) :
  node_x G i = Err e → e = KeyError.
Proof.
  unfold node_x, node_at.
  destruct (assoc (node_list G) i) as [d|]; simpl; [|congruence].
  destruct (attr_x d); congruence.
Qed.

Lemma feature_column_key_error (G : Graph) :
  NoDup (nodes G) → featured G → ¬ contiguous G → feature_column G = Err KeyError.
Proof.
  intros Hnd Hfeat Hnot.
  destruct (feature_column G) as [x1|e] eqn:Hcol.
  - exfalso. apply Hnot. by eapply feature_column_contiguous.
  - unfold feature_column in Hcol.
    apply traverse_raises in Hcol as (i & _ & Hbody).
    rewrite node_attributes_lookup in Hbody by done.
    destruct (node_x G i) as [f|e'] eqn:Hx; simpl in Hbody.
    + destruct (Hfeat i) as (f' & c & Hf' & Hc); [by eapply node_x_is_node|].
      assert (f' = f) as -> by congruence.
      unfold py_index in Hbody. by rewrite Hc in Hbody.
    + injection Hbody as <-. f_equal. by eapply node_x_raises.
Qed.

(** X16: on a graph with features whose node keys are distinct but not the
    integers [0 .. N-1], the ['edge'] rule still returns its label function,
    while ['feature'] and ['edge and feature'] raise [KeyError]. *)
Theorem noncontiguous_keys (lib : Library) (self : BAShapes) (G : Graph) :
  self_G self = Some G →
  NoDup (nodes G) → featured G → ¬ contiguous G →
  (self_labeling_method self = "edge" →
     labeling_rule lib self = Ok (get_label_edge lib self G)) ∧
  (self_labeling_method self = "feature" ∨
   self_labeling_method self = "edge and feature" →
     labeling_rule lib self = Err KeyError).
Proof.
  intros HG Hnd Hfeat Hnot.
  destruct (average_readable G Hfeat) as [cs Hcs].
  pose proof (feature_column_key_error G Hnd Hfeat Hnot) as Hcol.
  unfold labeling_rule. rewrite HG. simpl. rewrite Hcs. simpl. split.
  - by intros ->.
  - intros [-> | ->]; simpl; by rewrite Hcol.
Qed.

(** * Feature generation, names and reproducibility *)

(** ** Feature generation over a list of nodes *)

Lemma traverseM_cons {A B : Type} (f : A -> M B) (a : A) (l : list A) (w : World) :
  traverseM f (a :: l) w =
  match f a w with
  | Ok (b, w1) =>
      match traverseM f l w1 with
      | Ok (bs, w2) => Ok (b :: bs, w2)
      | Err e => Err e
      end
  | Err e => Err e
  end.
Proof.
  simpl. unfold bindM. destruct (f a w) as [[b w1]|e]; [|done].
  by destruct (traverseM f l w1) as [[bs w2]|e].
Qed.

Lemma get_feature_onehot_run (v : nat) (w : World) :
  get_feature_onehot v w =
  match onehot_feature (outputs (py_random w) (cursor (py_random w)) mod 3)%nat with
  | Ok f => Ok (f, after_draws w 1)
  | Err e => Err e
  end.
Proof.
  unfold get_feature_onehot, bindM. rewrite random_choice_range by lia.
  unfold liftM, after_draws, next. simpl. by rewrite Nat.add_1_r.
Qed.

Lemma after_draws_zero (w : World) : after_draws w 0 = w.
Proof. destruct w as [[o c] t]. unfold after_draws. simpl. by rewrite Nat.add_0_r. Qed.

Lemma after_draws_succ (w : World) (n : nat) :
  after_draws (after_draws w 1) n = after_draws w (S n).
Proof.
  unfold after_draws. simpl.
  by replace (cursor (py_random w) + 1 + n)%nat with (cursor (py_random w) + S n)%nat
    by lia.
Qed.

Lemma next_positions_succ (w : World) (n : nat) :
  next_positions w (S n) =
  (outputs (py_random w) (cursor (py_random w)) mod 3)%nat
    :: next_positions (after_draws w 1) n.
Proof.
  unfold next_positions. change (seq 0 (S n)) with (0%nat :: seq 1 n).
  cbn [map]. rewrite Nat.add_0_r. f_equal.
  rewrite <- seq_shift, map_map. apply map_ext. intros j.
  cbn [after_draws py_random cursor outputs].
  by replace (cursor (py_random w) + 1 + j)%nat with (cursor (py_random w) + S j)%nat
    by lia.
Qed.

Lemma next_positions_bound (w : World) (n : nat) :
  Forall (fun p => (p < 3)%nat) (next_positions w n).
Proof.
  unfold next_positions. apply Forall_forall. intros p Hp.
  apply list_elem_of_In, in_map_iff in Hp as (j & <- & _).
  apply Nat.mod_upper_bound. lia.
Qed.

Lemma onehot_features_total (ds : list nat) :
  Forall (fun p => (p < 3)%nat) ds → ∃ fs, traverse onehot_feature ds = Ok fs.
Proof.
  intros Hds. apply traverse_total. intros d Hd.
  eapply Forall_forall in Hds; [|exact Hd].
  destruct (onehot_feature_shape d Hds) as (f & Hf & _). eauto.
Qed.

(** The one-hot vectors of a list of nodes are those of the next draws, one
    draw per node. *)
Lemma onehot_features_run (vs : list nat) (w : World) :
  ∃ fs, traverse onehot_feature (next_positions w (length vs)) = Ok fs ∧
        traverseM get_feature_onehot vs w = Ok (fs, after_draws w (length vs)).
Proof.
  revert w. induction vs as [|v vs IH]; intros w.
  - exists []. split; [reflexivity|]. simpl. unfold retM. by rewrite after_draws_zero.
  - destruct (IH (after_draws w 1)) as (fs & Hfs & Hrun).
    assert (Hlt : (outputs (py_random w) (cursor (py_random w)) mod 3 < 3)%nat)
      by (apply Nat.mod_upper_bound; lia).
    destruct (onehot_feature_shape _ Hlt) as (f & Hf & _).
    exists (f :: fs). split.
    + simpl length. rewrite next_positions_succ. cbn [traverse]. rewrite Hf.
      unfold mbind at 1, result_bind at 1. by rewrite Hfs.
    + rewrite traverseM_cons, get_feature_onehot_run, Hf, Hrun.
      simpl length. by rewrite after_draws_succ.
Qed.

Lemma get_feature_gaussian_run (v : nat) (w : World) :
  get_feature_gaussian v w =
  Ok (map (fun i => outputs (torch_default w) (cursor (torch_default w) + i)%nat) (seq 0 3),
      after_samples w 1).
Proof.
  unfold get_feature_gaussian. rewrite torch_normal_three. unfold after_samples.
  cbn [map seq py_random]. f_equal. f_equal.
  - repeat f_equal; lia.
  - do 2 f_equal. lia.
Qed.

Lemma next_samples_succ (w : World) (n : nat) :
  next_samples w (S n) =
  map (fun i => outputs (torch_default w) (cursor (torch_default w) + i)%nat) (seq 0 3)
    :: next_samples (after_samples w 1) n.
Proof.
  unfold next_samples. change (seq 0 (S n)) with (0%nat :: seq 1 n).
  cbn [map]. f_equal.
  - apply map_ext. intros i. f_equal. lia.
  - rewrite <- seq_shift, map_map. apply map_ext. intros j.
    apply map_ext. intros i. cbn [after_samples torch_default cursor outputs].
    f_equal. lia.
Qed.

Lemma after_samples_zero (w : World) : after_samples w 0 = w.
Proof.
  destruct w as [p [o c]]. unfold after_samples. cbn [py_random torch_default cursor outputs].
  by replace (c + 3 * 0)%nat with c by lia.
Qed.

Lemma after_samples_succ (w : World) (n : nat) :
  after_samples (after_samples w 1) n = after_samples w (S n).
Proof.
  unfold after_samples. cbn [py_random torch_default cursor outputs].
  by replace (cursor (torch_default w) + 3 * 1 + 3 * n)%nat
    with (cursor (torch_default w) + 3 * S n)%nat by lia.
Qed.

(** The gaussian vectors of a list of nodes are the next triples of samples,
    three samples per node. *)
Lemma gaussian_features_run (vs : list nat) (w : World) :
  traverseM get_feature_gaussian vs w
  = Ok (next_samples w (length vs), after_samples w (length vs)).
Proof.
  revert w. induction vs as [|v vs IH]; intros w.
  - cbn [traverseM length]. unfold retM. by rewrite after_samples_zero.
  - rewrite traverseM_cons, get_feature_gaussian_run, IH. cbn [length].
    by rewrite next_samples_succ, after_samples_succ.
Qed.

Lemma traverseM_lift {A B : Type} (g : A -> result B) (l : list A) (w : World) :
  traverseM (fun a => liftM (g a)) l w =
  match traverse g l with Ok bs => Ok (bs, w) | Err e => Err e end.
Proof.
  revert w. induction l as [|a l IH]; intros w; [reflexivity|].
  rewrite traverseM_cons. unfold liftM at 1. simpl.
  destruct (g a) as [b|e]; simpl; [|done]. rewrite IH.
  by destruct (traverse g l).
Qed.

Lemma feature_generator_network_stats (lib : Library) (self : BAShapes)
    (get_feature : nat -> M Feature) :
  self_feature_method self = "network stats" →
  feature_generator lib self = Ok get_feature →
  ∃ G, self_G self = Some G ∧
       get_feature = fun v => liftM (network_stats_of lib G v).
Proof.
  intros Hm. unfold feature_generator. rewrite Hm. simpl.
  destruct (self_G self) as [G|]; simpl; [|done].
  intros [= <-]. by exists G.
Qed.

Lemma feature_generator_onehot (lib : Library) (self : BAShapes)
    (get_feature : nat -> M Feature) :
  self_feature_method self = "onehot" →
  feature_generator lib self = Ok get_feature → get_feature = get_feature_onehot.
Proof. intros Hm. unfold feature_generator. rewrite Hm. simpl. congruence. Qed.

Lemma feature_generator_gaussian (lib : Library) (self : BAShapes)
    (get_feature : nat -> M Feature) :
  self_feature_method self = "gaussian" →
  feature_generator lib self = Ok get_feature → get_feature = get_feature_gaussian.
Proof. intros Hm. unfold feature_generator. rewrite Hm. simpl. congruence. Qed.

(** X11: what generating the features of a list of nodes draws. Under
    ['onehot'] it makes one draw of the generator of [random] per node and
    leaves torch's generator as it was; under ['gaussian'] it takes three
    samples of torch's generator per node and leaves the generator of
    [random] as it was; under ['network stats'] it leaves both as they were.
    In each case one vector per node is returned. *)
Theorem strategies_and_generators (lib : Library) (self : BAShapes)
    (get_feature : nat -> M Feature) (vs : list nat) (w w' : World)
    (fs : list Feature) :
  feature_generator lib self = Ok get_feature →
  traverseM get_feature vs w = Ok (fs, w') →
  (self_feature_method self = "onehot" →
     length fs = length vs ∧
     torch_default w' = torch_default w ∧
     outputs (py_random w') = outputs (py_random w) ∧
     cursor (py_random w') = (cursor (py_random w) + length vs)%nat) ∧
  (self_feature_method self = "gaussian" →
     length fs = length vs ∧
     py_random w' = py_random w ∧
     outputs (torch_default w') = outputs (torch_default w) ∧
     cursor (torch_default w') = (cursor (torch_default w) + 3 * length vs)%nat) ∧
  (self_feature_method self = "network stats" →
     length fs = length vs ∧ w' = w).
Proof.
  intros Hgen Hrun. split; [|split]; intros Hm.
  - rewrite (feature_generator_onehot lib self _ Hm Hgen) in Hrun.
    destruct (onehot_features_run vs w) as (fs' & Hfs & Hrun').
    rewrite Hrun' in Hrun. injection Hrun as <- <-.
    split; [|done]. rewrite (traverse_length _ _ _ Hfs).
    unfold next_positions. by rewrite length_map, length_seq.
  - rewrite (feature_generator_gaussian lib self _ Hm Hgen) in Hrun.
    rewrite gaussian_features_run in Hrun. injection Hrun as <- <-.
    split; [|done]. unfold next_samples. by rewrite length_map, length_seq.
  - destruct (feature_generator_network_stats lib self _ Hm Hgen) as (G & _ & ->).
    rewrite traverseM_lift in Hrun.
    destruct (traverse (network_stats_of lib G) vs) as [fs'|e] eqn:Htr; [|done].
    injection Hrun as <- <-. split; [|done]. by eapply traverse_length.
Qed.

(** ** What the features depend on *)


(** ** The law of the one-hot positions *)

Lemma filter_ext_in {A : Type} (P Q : A → Prop) `{!∀ x, Decision (P x)}
    `{!∀ x, Decision (Q x)} (l : list A) :
  (∀ x, x ∈ l → P x ↔ Q x) → filter P l = filter Q l.
Proof.
  induction l as [|a l IH]; intros Hext; [done|].
  rewrite !filter_cons.
  assert (Ha : P a ↔ Q a) by (apply Hext; by left).
  rewrite IH by (intros; apply Hext; by right).
  destruct (decide (P a)), (decide (Q a)); tauto.
Qed.

Lemma default_positions (o : nat → nat) (ds : list nat) :
  Forall (fun p => (p < 3)%nat) ds →
  map (fun j => (default (o j) (ds !! j) mod 3)%nat) (seq 0 (length ds)) = ds.
Proof.
  intros Hds. revert o. induction Hds as [|d ds Hd _ IH]; intros o; [reflexivity|].
  cbn [length]. change (seq 0 (S (length ds))) with (0%nat :: seq 1 (length ds)).
  cbn [map]. f_equal.
  - change ((d mod 3)%nat = d). by apply Nat.mod_small.
  - rewrite <- seq_shift, map_map. exact (IH (fun j => o (S j))).
Qed.

(** In the world where the next draws are [ds], they select the positions
    [ds]. *)
Lemma with_draws_positions (w : World) (ds : list nat) :
  Forall (fun p => (p < 3)%nat) ds →
  next_positions (with_draws w ds) (length ds) = ds.
Proof.
  intros Hds.
  transitivity (map (fun j => (default (outputs (py_random w) (cursor (py_random w) + j))
                                 (ds !! j) mod 3)%nat) (seq 0 (length ds))).
  2:{ exact (default_positions
               (fun j => outputs (py_random w) (cursor (py_random w) + j)) ds Hds). }
  unfold next_positions, with_draws. cbn [py_random cursor outputs].
  apply map_ext. intros j.
  replace (cursor (py_random w) <=? cursor (py_random w) + j)%nat with true
    by (symmetry; apply Nat.leb_le; lia).
  by replace (cursor (py_random w) + j - cursor (py_random w))%nat with j by lia.
Qed.

Lemma is_hot_onehot (d p : nat) (f : Feature) :
  (d < 3)%nat → onehot_feature d = Ok f → is_hot f p = true ↔ p = d.
Proof.
  intros Hd Hf. destruct d as [|[|[|d]]]; [| | |lia]; injection Hf as <-;
    destruct p as [|[|[|p]]]; vm_compute; split; intros; (done || lia).
Qed.

Lemma hot_positions_iff (ds ps : list nat) (fs : list Feature) (w : World) :
  Forall (fun p => (p < 3)%nat) ds →
  traverse onehot_feature ds = Ok fs →
  hot_positions ps (Ok (fs, w)) = true ↔ ds = ps.
Proof.
  intros Hds. revert ps fs. induction Hds as [|d ds Hd _ IH]; intros ps fs.
  - intros [= <-]. destruct ps; simpl; split; done.
  - cbn [traverse]. destruct (onehot_feature d) as [f|e] eqn:Hf; [|done].
    unfold mbind at 1, result_bind at 1.
    destruct (traverse onehot_feature ds) as [fs'|e] eqn:Hfs; [|done].
    unfold mbind, result_bind. intros [= <-].
    destruct ps as [|p ps]; [simpl; split; done|].
    specialize (IH ps fs' eq_refl). unfold hot_positions in *.
    cbn [length zip zip_with forallb fst snd]. 
    change (S (length fs') =? S (length ps))%nat with (length fs' =? length ps)%nat.
    rewrite andb_true_iff in IH. rewrite !andb_true_iff.
    rewrite (is_hot_onehot d p f Hd Hf). split.
    + intros (Hlen & -> & Hall). f_equal. apply IH. done.
    + intros [= <- <-]. destruct IH as [_ IH]. destruct (IH eq_refl). done.
Qed.

Lemma all_draws_elements (k : nat) (ds : list nat) :
  ds ∈ all_draws k → length ds = k ∧ Forall (fun p => (p < 3)%nat) ds.
Proof.
  revert ds. induction k as [|k IH]; intros ds.
  - simpl. rewrite list_elem_of_singleton. by intros ->.
  - cbn [all_draws seq map concat]. rewrite !elem_of_app, elem_of_nil.
    intros [H | [H | [H | []]]];
      apply list_elem_of_In, in_map_iff in H as (ds' & <- & Hin);
      apply list_elem_of_In, IH in Hin as [<- Hall];
      (split; [reflexivity | constructor; [lia | done]]).
Qed.

Lemma count_cons (d p : nat) (ps : list nat) (l : list (list nat)) :
  length (filter (fun ds => ds = p :: ps) (map (cons d) l))
  = if (d =? p)%nat then length (filter (fun ds => ds = ps) l) else 0%nat.
Proof.
  induction l as [|x l IH]; cbn [map].
  - by destruct (d =? p)%nat.
  - rewrite !filter_cons.
    destruct (decide (d :: x = p :: ps)) as [Heq|Hne].
    + injection Heq as -> ->. rewrite decide_True by done.
      cbn [length]. rewrite IH. by rewrite Nat.eqb_refl.
    + rewrite IH. destruct (Nat.eqb_spec d p) as [->|Hd]; [|done].
      rewrite decide_False; [done|]. by intros ->.
Qed.

(** Each sequence of positions is one of the [3 ^ k] sequences of draws,
    once. *)
Lemma all_draws_count (ps : list nat) :
  Forall (fun p => (p < 3)%nat) ps →
  length (filter (fun ds => ds = ps) (all_draws (length ps))) = 1%nat.
Proof.
  induction 1 as [|p ps Hp _ IH]; [reflexivity|].
  cbn [length all_draws seq map concat].
  rewrite !filter_app, !length_app, !count_cons, IH.
  destruct p as [|[|[|p]]]; [reflexivity..|lia].
Qed.

Lemma all_draws_length (k : nat) : length (all_draws k) = (3 ^ k)%nat.
Proof.
  induction k as [|k IH]; [reflexivity|].
  cbn [all_draws seq map concat]. rewrite !length_app, !length_map, IH.
  cbn [length Nat.pow]. lia.
Qed.

(** Among the equally likely sequences of draws for a list of nodes,
    exactly one puts the 1s at given positions. *)
Lemma onehot_positions_count (vs ps : list nat) (w : World) :
  length ps = length vs →
  Forall (fun p => (p < 3)%nat) ps →
  length (filter (fun ds => hot_positions ps
                              (traverseM get_feature_onehot vs (with_draws w ds)) = true)
            (all_draws (length vs))) = 1%nat.
Proof.
  intros Hlen Hps. rewrite <- Hlen. rewrite <- (all_draws_count ps Hps). f_equal.
  apply filter_ext_in. intros ds Hds.
  apply all_draws_elements in Hds as [Hk Hall].
  destruct (onehot_features_run vs (with_draws w ds)) as (fs & Hfs & ->).
  rewrite <- Hlen, <- Hk, with_draws_positions in Hfs by done.
  by apply hot_positions_iff.
Qed.

Lemma filter_map_length {A B : Type} (f : A → B) (P : B → Prop)
    `{!∀ b, Decision (P b)} (l : list A) :
  length (filter P (map f l)) = length (filter (fun a => P (f a)) l).
Proof.
  induction l as [|a l IH]; [reflexivity|].
  cbn [map]. rewrite !filter_cons. destruct (decide (P (f a))); cbn [length]; by rewrite IH.
Qed.

Lemma random_choice_run (w : World) :
  random_choice (seq 0 3) w
  = Ok ((outputs (py_random w) (cursor (py_random w)) mod 3)%nat, after_draws w 1).
Proof.
  rewrite random_choice_range by lia. unfold next, after_draws. cbn [snd cursor outputs].
  by rewrite Nat.add_1_r.
Qed.

(** Successive calls of [random.choice(range(3))] return the next
    positions. *)
Lemma random_choices_run {A : Type} (vs : list A) (w : World) :
  traverseM (fun _ => random_choice (seq 0 3)) vs w
  = Ok (next_positions w (length vs), after_draws w (length vs)).
Proof.
  revert w. induction vs as [|v vs IH]; intros w.
  - cbn [traverseM length]. unfold retM. by rewrite after_draws_zero.
  - rewrite traverseM_cons, random_choice_run, IH. cbn [length].
    by rewrite next_positions_succ, after_draws_succ.
Qed.

(** C7: under the ['onehot'] strategy the vector generated for a node has
    length 3, entries 0 or 1 only, and its single 1 at the position that
    [random.choice(range(3))] returns in the same state of the generator,
    hence sum 1; generating it consumes that one call of [random.choice]
    and nothing else. Over the uniform law of [random.choice] each of the 3
    positions receives the 1 with probability 1/3, and over a list of nodes
    every assignment of positions arises from exactly one of the [3 ^ k]
    equally likely sequences of results: the positions are uniform and
    independent from node to node. *)
Theorem onehot_vector (lib : Library) (self : BAShapes) (node_idx : nat) (w : World) :
  self_feature_method self = "onehot" →
  ∃ get_feature i f w',
    feature_generator lib self = Ok get_feature ∧
    random_choice (seq 0 3) w = Ok (i, w') ∧
    get_feature node_idx w = Ok (f, w') ∧
    (i < 3)%nat ∧
    length f = 3%nat ∧
    (∀ v, v ∈ f → v = (0 # 1)%Q ∨ v = (1 # 1)%Q) ∧
    (∀ j, f !! j = Some (1 # 1)%Q ↔ j = i) ∧
    length (filter (fun v => Qeq_bool v (1 # 1) = true) f) = 1%nat ∧
    Qeq (sum_Q f) (1 # 1) ∧
    (∀ (vs ds : list nat), ds ∈ all_draws (length vs) →
       fst <$> traverseM (fun _ => random_choice (seq 0 3)) vs (with_draws w ds) = Ok ds) ∧
    (∀ p, (p < 3)%nat →
       Qeq (prob_choice (seq 0 3)
              (fun d => hot_positions [p]
                          (traverseM get_feature [node_idx] (with_draws w [d]))))
           (1 # 3)) ∧
    (∀ (vs ps : list nat),
       length ps = length vs →
       Forall (fun p => (p < 3)%nat) ps →
       length (filter (fun ds => hot_positions ps
                                   (traverseM get_feature vs (with_draws w ds)) = true)
                 (all_draws (length vs))) = 1%nat ∧
       length (all_draws (length vs)) = (3 ^ length vs)%nat).
Proof.
  intros Hm.
  assert (Hgen : feature_generator lib self = Ok get_feature_onehot)
    by (unfold feature_generator; by rewrite Hm).
  set (i := (outputs (py_random w) (cursor (py_random w)) mod 3)%nat).
  assert (Hlt : (i < 3)%nat) by (apply Nat.mod_upper_bound; lia).
  destruct (onehot_feature_shape i Hlt) as (f & Hf & Hlen & Hval & Hpos & Hone & Hsum).
  exists get_feature_onehot, i, f, (after_draws w 1).
  split; [exact Hgen|]. split; [apply random_choice_run|]. split.
  { rewrite get_feature_onehot_run. fold i. by rewrite Hf. }
  do 6 (split; [done|]). split; [|split].
  - intros vs ds Hds. apply all_draws_elements in Hds as [Hk Hall].
    rewrite random_choices_run. cbn [fmap result_fmap fst].
    by rewrite <- Hk, with_draws_positions.
  - intros p Hp. unfold prob_choice.
    assert (Hps : Forall (fun p => (p < 3)%nat) [p]) by (constructor; [done|constructor]).
    pose proof (onehot_positions_count [node_idx] [p] w eq_refl Hps) as Hc.
    change (all_draws (length [node_idx])) with (map (fun d : nat => [d]) (seq 0 3)) in Hc.
    rewrite filter_map_length in Hc. by rewrite Hc.
  - intros vs ps Hlen' Hps. split.
    + by apply onehot_positions_count.
    + apply all_draws_length.
Qed.

(** ** Where an unsupported name is found *)








(** ** Single precision and the Kelvin sign *)

Example tensor_float_samples :
  Reference.tensor_float (1 # 3) = (11184811 # 33554432)%Q ∧
  Reference.tensor_float (1 # 10) = (13421773 # 134217728)%Q ∧
  Reference.tensor_float (-(1 # 3)) = (-11184811 # 33554432)%Q ∧
  Reference.tensor_float (3 # 2) = (3 # 2)%Q ∧
  Reference.tensor_float (16777217 # 16777216) = (1 # 1)%Q ∧
  Reference.tensor_float (16777219 # 16777216) = (4194305 # 4194304)%Q.
Proof. repeat split; vm_compute; reflexivity. Qed.

Example kelvin_sign_lowered :
  str_lower (String.append "NETWOR" (String.append kelvin_sign " STATS")) = "network stats" ∧
  ¬ unsupported_feature (String.append "networ" (String.append kelvin_sign " stats")) ∧
  is_ok (BAShapes_new Reference.lib
           (args_small (String.append "networ" (String.append kelvin_sign " stats")) "edge")
           world0) = true.
Proof.
  split; [reflexivity|]. split; [|reflexivity].
  intros Hno. apply Hno. vm_compute. by left.
Qed.

(** ** The sample graphs *)

Lemma demo_graph_keys :
  NoDup (nodes demo_graph) ∧ contiguous demo_graph ∧ featured demo_graph ∧
  tagged demo_graph [1; 0; 2]%nat.
Proof.
  split; [|split; [|split]].
  - unfold nodes. simpl. repeat constructor; rewrite ?elem_of_cons, ?elem_of_nil; lia.
  - intros i Hi. unfold nodes in *. simpl in *.
    rewrite !elem_of_cons, elem_of_nil. lia.
  - intros i Hi. unfold nodes in Hi. simpl in Hi.
    rewrite !elem_of_cons, elem_of_nil in Hi.
    destruct Hi as [-> | [-> | [-> | []]]]; eexists _, _; split; reflexivity.
  - intros ni Hni. rewrite !elem_of_cons, elem_of_nil in Hni.
    destruct Hni as [-> | [-> | [-> | []]]]; eexists; reflexivity.
Qed.

Lemma demo_graph_gap_keys :
  NoDup (nodes demo_graph_gap) ∧ featured demo_graph_gap ∧ ¬ contiguous demo_graph_gap.
Proof.
  split; [|split].
  - unfold nodes. simpl. repeat constructor; rewrite ?elem_of_cons, ?elem_of_nil; lia.
  - intros i Hi. unfold nodes in Hi. simpl in Hi.
    rewrite !elem_of_cons, elem_of_nil in Hi.
    destruct Hi as [-> | [-> | []]]; eexists _, _; split; reflexivity.
  - intros Hc. specialize (Hc 1%nat). unfold nodes in Hc. simpl in Hc.
    rewrite !elem_of_cons, elem_of_nil in Hc. lia.
Qed.

Lemma demo_graph_untagged_keys : ¬ tagged demo_graph_untagged [0]%nat.
Proof. intros Ht. destruct (Ht 0%nat) as [s Hs]; [by left | discriminate Hs]. Qed.

(** ** Instances *)

Lemma labeling_rule_needs_features_witness :
  labeling_rule Reference.lib (demo_self "edge" demo_graph)
    = Ok (get_label_edge Reference.lib (demo_self "edge" demo_graph) demo_graph) ∧
  ∃ G, self_G (demo_self "edge" demo_graph) = Some G ∧ featured G.
Proof.
  split; [reflexivity|].
  exact (labeling_rule_needs_features Reference.lib (demo_self "edge" demo_graph)
           _ eq_refl).
Defined.

Lemma labels_are_binary_witness :
  labeling_rule Reference.lib (demo_self "edge and feature" demo_graph)
    = Ok (get_label_edge_and_feature Reference.lib
            (demo_self "edge and feature" demo_graph) demo_graph
            [0 # 1; 1 # 1; 0 # 1]%Q (Some (0 # 1)%Q)) ∧
  get_label_edge_and_feature Reference.lib
    (demo_self "edge and feature" demo_graph) demo_graph
    [0 # 1; 1 # 1; 0 # 1]%Q (Some (0 # 1)%Q) 1%nat = Ok 1%Z ∧
  (1 = 0 ∨ 1 = 1)%Z.
Proof.
  split; [reflexivity|]. split; [reflexivity|].
  exact (labels_are_binary Reference.lib (demo_self "edge and feature" demo_graph)
           _ 1%nat 1%Z eq_refl eq_refl).
Defined.

Lemma feature_column_spec_witness :
  NoDup (nodes demo_graph) ∧
  (feature_column demo_graph = Ok [0 # 1; 1 # 1; 0 # 1]%Q ↔
   length [0 # 1; 1 # 1; 0 # 1]%Q = length (nodes demo_graph) ∧
   ∀ i, (i < length (nodes demo_graph))%nat →
     ∃ f c, node_x demo_graph i = Ok f ∧ f !! 1%nat = Some c ∧
            [0 # 1; 1 # 1; 0 # 1]%Q !! i = Some c).
Proof.
  split; [exact (proj1 demo_graph_keys)|].
  exact (feature_column_spec demo_graph [0 # 1; 1 # 1; 0 # 1]%Q (proj1 demo_graph_keys)).
Defined.

Lemma rule_names_accepted_witness :
  NoDup (nodes demo_graph) ∧ contiguous demo_graph ∧ featured demo_graph ∧
  ∃ self call,
    BAShapes_init Reference.lib (args_small "onehot" "Feature And Edge") = Ok (self, call) ∧
    (is_ok (labeling_rule Reference.lib (set_G (set_num_hops self 1) demo_graph)) = true
     ↔ str_lower (a_labeling_method (args_small "onehot" "Feature And Edge"))
       ∈ supported_rules).
Proof.
  destruct demo_graph_keys as (Hnd & Hcont & Hfeat & _).
  split; [done|]. split; [done|]. split; [done|].
  eexists _, _. split; [reflexivity|].
  exact (rule_names_accepted Reference.lib (args_small "onehot" "Feature And Edge")
           _ _ 1%nat demo_graph eq_refl Hnd Hcont Hfeat).
Defined.

Lemma feature_names_accepted_witness :
  ∃ self call,
    BAShapes_init Reference.lib (args_small "OneHot" "edge") = Ok (self, call) ∧
    (is_ok (feature_generator Reference.lib (set_G (set_num_hops self 1) demo_graph_bare))
       = true
     ↔ str_lower (a_feature_method (args_small "OneHot" "edge")) ∈ supported_features).
Proof.
  eexists _, _. split; [reflexivity|].
  exact (feature_names_accepted Reference.lib (args_small "OneHot" "edge")
           _ _ 1%nat demo_graph_bare eq_refl).
Defined.

Lemma edge_and_feature_at_most_half_witness :
  labeling_rule Reference.lib (demo_self "edge and feature" demo_graph)
    = Ok (get_label_edge_and_feature Reference.lib
            (demo_self "edge and feature" demo_graph) demo_graph
            [0 # 1; 1 # 1; 0 # 1]%Q (Some (0 # 1)%Q)) ∧
  traverse (get_label_edge_and_feature Reference.lib
              (demo_self "edge and feature" demo_graph) demo_graph
              [0 # 1; 1 # 1; 0 # 1]%Q (Some (0 # 1)%Q))
    (seq 0 (length (nodes demo_graph))) = Ok [0; 1; 0]%Z ∧
  (length (filter (fun y => y = 1%Z) [0; 1; 0]%Z) <= length (nodes demo_graph) / 2)%nat.
Proof.
  split; [reflexivity|]. split; [reflexivity|].
  exact (edge_and_feature_at_most_half Reference.lib
           (demo_self "edge and feature" demo_graph) demo_graph _ [0; 1; 0]%Z
           eq_refl eq_refl eq_refl eq_refl).
Defined.

Lemma lowest_coordinate_label_zero_witness :
  feature_column demo_graph = Ok [0 # 1; 1 # 1; 0 # 1]%Q ∧
  (∀ x, x ∈ [0 # 1; 1 # 1; 0 # 1]%Q → Qle (0 # 1) x) ∧
  get_label_edge_and_feature Reference.lib
    (demo_self "edge and feature" demo_graph) demo_graph
    [0 # 1; 1 # 1; 0 # 1]%Q (Some (0 # 1)%Q) 2%nat = Ok 0%Z ∧
  0%Z = 0%Z.
Proof.
  assert (Hlow : ∀ x, x ∈ [0 # 1; 1 # 1; 0 # 1]%Q → Qle (0 # 1) x).
  { intros x Hx. rewrite !elem_of_cons, elem_of_nil in Hx.
    destruct Hx as [-> | [-> | [-> | []]]]; discriminate. }
  split; [reflexivity|]. split; [exact Hlow|]. split; [reflexivity|].
  exact (lowest_coordinate_label_zero Reference.lib
           (demo_self "edge and feature" demo_graph) demo_graph _
           [0 # 1; 1 # 1; 0 # 1]%Q 2%nat (0 # 1)%Q 0%Z
           eq_refl eq_refl eq_refl eq_refl eq_refl Hlow eq_refl).
Defined.

Lemma untagged_neighbour_raises_witness :
  khop_subgraph_nx Reference.lib 0 1 demo_graph_untagged = Ok [0]%nat ∧
  ¬ tagged demo_graph_untagged [0]%nat ∧
  get_label_edge Reference.lib (demo_self "edge" demo_graph_untagged)
    demo_graph_untagged 0 = Err KeyError.
Proof.
  split; [reflexivity|]. split; [exact demo_graph_untagged_keys|].
  exact (proj1 (proj2 (untagged_neighbour_raises Reference.lib
                         (demo_self "edge" demo_graph_untagged) demo_graph_untagged
                         0%nat 1%nat [0]%nat eq_refl eq_refl)
                  demo_graph_untagged_keys)).
Defined.

Lemma feature_vectors_have_length_three_witness :
  feature_generator Reference.lib (demo_self "edge" demo_graph)
    = Ok (get_feature_network_stats Reference.lib demo_graph
            (Reference.degree_centrality demo_graph)) ∧
  get_feature_network_stats Reference.lib demo_graph
    (Reference.degree_centrality demo_graph) 1%nat world0
    = Ok ([2 # 1; 0 # 1; 1 # 1]%Q, world0) ∧
  length [2 # 1; 0 # 1; 1 # 1]%Q = 3%nat.
Proof.
  split; [reflexivity|]. split; [reflexivity|].
  exact (feature_vectors_have_length_three Reference.lib (demo_self "edge" demo_graph)
           _ 1%nat world0 world0 [2 # 1; 0 # 1; 1 # 1]%Q eq_refl eq_refl).
Defined.

Lemma feature_generator_before_graph_witness :
  self_G (mkBAShapes 2 1 (Some 7%Z) "network stats" "edge" None None) = None ∧
  feature_generator Reference.lib
    (mkBAShapes 2 1 (Some 7%Z) "network stats" "edge" None None) = Err AttributeError.
Proof.
  split; [reflexivity|].
  exact (proj1 (feature_generator_before_graph Reference.lib
                  (mkBAShapes 2 1 (Some 7%Z) "network stats" "edge" None None) eq_refl)
           eq_refl).
Defined.

Lemma constructor_normalises_names_witness :
  ∃ self call,
    BAShapes_init Reference.lib (args_small "OneHot" "Feature And Edge") = Ok (self, call) ∧
    str_lower (self_feature_method self) = self_feature_method self ∧
    str_lower (self_labeling_method self) = self_labeling_method self ∧
    self_labeling_method self ≠ "feature and edge" ∧
    BAShapes_init Reference.lib
      (mkInitArgs 1 2 1 (Some 0%Z) "HOUSE" (Some 7%Z) "plant" "global"
         "onehot" "feature and edge" [])
    = Ok (self, call).
Proof.
  eexists _, _. split; [reflexivity|].
  destruct (constructor_normalises_names Reference.lib
              (args_small "OneHot" "Feature And Edge") _ _ eq_refl)
    as (Hf & Hl & Hne & Hcase).
  split; [exact Hf|]. split; [exact Hl|]. split; [exact Hne|].
  exact (Hcase "HOUSE" "onehot" "feature and edge" eq_refl eq_refl eq_refl).
Defined.

Lemma noncontiguous_keys_witness :
  NoDup (nodes demo_graph_gap) ∧ featured demo_graph_gap ∧ ¬ contiguous demo_graph_gap ∧
  labeling_rule Reference.lib (demo_self "edge" demo_graph_gap)
    = Ok (get_label_edge Reference.lib (demo_self "edge" demo_graph_gap) demo_graph_gap) ∧
  labeling_rule Reference.lib (demo_self "edge and feature" demo_graph_gap) = Err KeyError.
Proof.
  destruct demo_graph_gap_keys as (Hnd & Hfeat & Hnot).
  do 3 (split; [done|]). split.
  - exact (proj1 (noncontiguous_keys Reference.lib (demo_self "edge" demo_graph_gap)
                    demo_graph_gap eq_refl Hnd Hfeat Hnot) eq_refl).
  - exact (proj2 (noncontiguous_keys Reference.lib
                    (demo_self "edge and feature" demo_graph_gap)
                    demo_graph_gap eq_refl Hnd Hfeat Hnot) (or_intror eq_refl)).
Defined.

Example visualize_samples :
  visualize_node_color [0; 1; 0]%Z demo_graph = Ok [0; 1; 0]%Z ∧
  visualize_node_color [5; 6; 7]%Z demo_graph_gap = Ok [5; 7]%Z ∧
  visualize_node_color [5; 6]%Z demo_graph_gap = Err IndexError.
Proof. repeat split; reflexivity. Qed.

Lemma onehot_vector_witness :
  self_feature_method (mkBAShapes 2 1 (Some 7%Z) "onehot" "edge" (Some 1%nat) None)
    = "onehot" ∧
  ∃ get_feature i f w',
    feature_generator Reference.lib
      (mkBAShapes 2 1 (Some 7%Z) "onehot" "edge" (Some 1%nat) None) = Ok get_feature ∧
    random_choice (seq 0 3) world1 = Ok (i, w') ∧
    get_feature 0%nat world1 = Ok (f, w') ∧
    (i < 3)%nat ∧
    length f = 3%nat ∧
    (∀ v, v ∈ f → v = (0 # 1)%Q ∨ v = (1 # 1)%Q) ∧
    (∀ j, f !! j = Some (1 # 1)%Q ↔ j = i) ∧
    length (filter (fun v => Qeq_bool v (1 # 1) = true) f) = 1%nat ∧
    Qeq (sum_Q f) (1 # 1) ∧
    (∀ (vs ds : list nat), ds ∈ all_draws (length vs) →
       fst <$> traverseM (fun _ => random_choice (seq 0 3)) vs (with_draws world1 ds)
       = Ok ds) ∧
    (∀ p, (p < 3)%nat →
       Qeq (prob_choice (seq 0 3)
              (fun d => hot_positions [p]
                          (traverseM get_feature [0%nat] (with_draws world1 [d]))))
           (1 # 3)) ∧
    (∀ (vs ps : list nat),
       length ps = length vs →
       Forall (fun p => (p < 3)%nat) ps →
       length (filter (fun ds => hot_positions ps
                                   (traverseM get_feature vs (with_draws world1 ds)) = true)
                 (all_draws (length vs))) = 1%nat ∧
       length (all_draws (length vs)) = (3 ^ length vs)%nat).
Proof.
  split; [reflexivity|].
  exact (onehot_vector Reference.lib
           (mkBAShapes 2 1 (Some 7%Z) "onehot" "edge" (Some 1%nat) None) 0%nat world1
           eq_refl).
Defined.

Example onehot_vector_sample :
  get_feature_onehot 0%nat world1
    = Ok ([0 # 1; 1 # 1; 0 # 1]%Q, mkWorld (mkGenerator (fun k => k) 2) (still (0 # 1)%Q)) ∧
  fst <$> traverseM get_feature_onehot [0; 1]%nat (with_draws world1 [2; 0]%nat)
    = Ok [[0 # 1; 0 # 1; 1 # 1]; [1 # 1; 0 # 1; 0 # 1]]%Q ∧
  filter (fun ds => hot_positions [2; 0]%nat
                      (traverseM get_feature_onehot [0; 1]%nat (with_draws world1 ds)) = true)
    (all_draws 2) = [[2; 0]%nat].
Proof. split; [reflexivity|]. split; reflexivity. Qed.



Lemma edge_and_feature_label_witness :
  self_labeling_method (demo_self "edge and feature" demo_graph) = "edge and feature" ∧
  NoDup (nodes demo_graph) ∧ contiguous demo_graph ∧ featured demo_graph ∧
  (1 < length (nodes demo_graph))%nat ∧
  khop_subgraph_nx Reference.lib 1 1 demo_graph = Ok [1; 0; 2]%nat ∧
  tagged demo_graph [1; 0; 2]%nat ∧
  median_between_middles [0 # 1; 1 # 1; 0 # 1]%Q ∧
  ∃ get_label label x1 f xv lo hi,
    labeling_rule Reference.lib (demo_self "edge and feature" demo_graph) = Ok get_label ∧
    get_label 1%nat = Ok label ∧
    feature_column demo_graph = Ok x1 ∧
    node_x demo_graph 1 = Ok f ∧ f !! 1%nat = Some xv ∧
    lower_middle x1 = Some lo ∧ upper_middle x1 = Some hi ∧ Qle lo hi ∧
    (Nat.odd (length (nodes demo_graph)) = true → lo = hi ∧ np_median x1 = Some hi) ∧
    (label = 0%Z ∨ label = 1%Z) ∧
    (¬ one_motif_in demo_graph [1; 0; 2]%nat → label = 0%Z) ∧
    (median_between_middles x1 →
       (label = 1%Z → one_motif_in demo_graph [1; 0; 2]%nat ∧ Qlt lo xv) ∧
       (one_motif_in demo_graph [1; 0; 2]%nat → Qlt hi xv → label = 1%Z)).
Proof.
  destruct demo_graph_keys as (Hnd & Hcont & Hfeat & Htag).
  assert (Hlt : (1 < length (nodes demo_graph))%nat) by (unfold nodes; simpl; lia).
  split; [reflexivity|]. do 3 (split; [done|]). split; [exact Hlt|].
  split; [reflexivity|]. split; [done|]. split; [by left|].
  exact (edge_and_feature_label Reference.lib (demo_self "edge and feature" demo_graph)
           demo_graph 1%nat 1%nat [1; 0; 2]%nat eq_refl eq_refl eq_refl
           Hnd Hcont Hfeat Hlt eq_refl Htag).
Defined.

Example edge_and_feature_sample :
  (get_label ← labeling_rule Reference.lib (demo_self "edge and feature" demo_graph);
   traverse get_label (nodes demo_graph)) = Ok [0; 1; 0]%Z ∧
  feature_column demo_graph = Ok [0 # 1; 1 # 1; 0 # 1]%Q ∧
  lower_middle [0 # 1; 1 # 1; 0 # 1]%Q = Some (0 # 1)%Q ∧
  upper_middle [0 # 1; 1 # 1; 0 # 1]%Q = Some (0 # 1)%Q ∧
  lower_middle [3 # 1; 1 # 1; 2 # 1; 5 # 1]%Q = Some (2 # 1)%Q ∧
  upper_middle [3 # 1; 1 # 1; 2 # 1; 5 # 1]%Q = Some (3 # 1)%Q.
Proof. repeat split; reflexivity. Qed.

Lemma strategies_and_generators_witness :
  feature_generator Reference.lib
    (mkBAShapes 2 1 (Some 7%Z) "gaussian" "edge" (Some 1%nat) None)
    = Ok get_feature_gaussian ∧
  traverseM get_feature_gaussian [0; 1]%nat world2
    = Ok ([[1 # 1; 1 # 1; 1 # 1]; [1 # 1; 1 # 1; 1 # 1]]%Q,
          mkWorld counting (mkGenerator (fun _ => (1 # 1)%Q) 6)) ∧
  length [[1 # 1; 1 # 1; 1 # 1]; [1 # 1; 1 # 1; 1 # 1]]%Q = length [0; 1]%nat ∧
  py_random (mkWorld counting (mkGenerator (fun _ => (1 # 1)%Q) 6)) = py_random world2 ∧
  cursor (torch_default (mkWorld counting (mkGenerator (fun _ => (1 # 1)%Q) 6)))
    = (cursor (torch_default world2) + 3 * length [0; 1]%nat)%nat.
Proof.
  split; [reflexivity|]. split; [reflexivity|].
  destruct (strategies_and_generators Reference.lib
              (mkBAShapes 2 1 (Some 7%Z) "gaussian" "edge" (Some 1%nat) None)
              get_feature_gaussian [0; 1]%nat world2
              (mkWorld counting (mkGenerator (fun _ => (1 # 1)%Q) 6))
              [[1 # 1; 1 # 1; 1 # 1]; [1 # 1; 1 # 1; 1 # 1]]%Q eq_refl eq_refl)
    as (_ & Hg & _).
  destruct (Hg eq_refl) as (Hlen & Hpy & _ & Hcur).
  split; [exact Hlen|]. split; [exact Hpy | exact Hcur].
Defined.

Lemma network_stats_feature_witness :
  self_feature_method (demo_self "edge" demo_graph) = "network stats" ∧
  self_G (demo_self "edge" demo_graph) = Some demo_graph ∧
  ∃ get_feature,
    feature_generator Reference.lib (demo_self "edge" demo_graph) = Ok get_feature ∧
    ∀ v w f w',
      get_feature v w = Ok (f, w') ↔
      w' = w ∧ ∃ d c dc, degree Reference.lib demo_graph v = Ok d ∧
                         clustering Reference.lib demo_graph v = Ok c ∧
                         assoc (degree_centrality Reference.lib demo_graph) v = Some dc ∧
                         f = [tensor_float Reference.lib d; tensor_float Reference.lib c;
                              tensor_float Reference.lib dc].
Proof.
  split; [reflexivity|]. split; [reflexivity|].
  exact (network_stats_feature Reference.lib (demo_self "edge" demo_graph) demo_graph
           eq_refl eq_refl).
Defined.
